(** * Mantella: the conversation manager ([src/game_manager.py])

    A shallow embedding of [GameStateManager]: the request handlers
    [start_conversation], [continue_conversation], [player_input] and
    [end_conversation], the private [__update_context], and
    [load_character] with its helpers.

    Python objects are modelled as follows.
    - The JSON payloads ([dict[str, Any]]) are values of [json]; numbers are
      integers, fractional numbers are outside the model.
    - Exceptions are values of [exn]; a computation that can raise returns a
      [result].
    - The manager's only mutable attribute is [__talk]; handlers are
      computations in the monad [M], which threads that attribute and
      collects the calls made to collaborators as a list of [event]s.
    - Collaborators whose code lives outside this file ([gameable],
      [ConfigLoader], [utils], the constants of [communication_constants],
      the generation side of [conversation]) are interfaces: type classes
      whose methods are arbitrary. *)

From Stdlib Require Import ZArith String Ascii List Bool Lia.
From stdpp Require Import base option list strings pretty gmap.

Set Default Proof Using "Type".

(** ** Exceptions and results *)

Inductive exn : Type :=
| CharacterDoesNotExist
| KeyError (key : string)
| TypeError
| ValueError
| IndexError
| AttributeError
| OtherError (what : string).

Inductive result (A : Type) : Type :=
| Ok (a : A)
| Raise (e : exn).
Arguments Ok {A} a.
Arguments Raise {A} e.

#[global] Instance result_ret : MRet result := fun _ a => Ok a.
#[global] Instance result_bind : MBind result := fun _ _ f r =>
  match r with
  | Ok a => f a
  | Raise e => Raise e
  end.
#[global] Instance result_fmap : FMap result := fun _ _ f r =>
  match r with
  | Ok a => Ok (f a)
  | Raise e => Raise e
  end.

(** ** JSON values, and the Python operations the manager applies to them *)

#[warnings="-register-all"]
Inductive json : Type :=
| JNull
| JBool (b : bool)
| JInt (z : Z)
| JStr (s : string)
| JList (items : list json)
| JObj (items : list (string * json)).

(** A [dict] is its list of items in insertion order, keys distinct. *)
Fixpoint dict_get {V} (k : string) (d : list (string * V)) : option V :=
  match d with
  | [] => None
  | (k', v) :: d' => if String.eqb k k' then Some v else dict_get k d'
  end.

(** [d[k] = v]: replaces the value of an existing key, appends a new one. *)
Fixpoint dict_set {V} (k : string) (v : V) (d : list (string * V))
  : list (string * V) :=
  match d with
  | [] => [(k, v)]
  | (k', v') :: d' =>
      if String.eqb k k' then (k, v) :: d' else (k', v') :: dict_set k v d'
  end.

(** A dict display [{k1: v1, k2: v2, ...}]. *)
Definition py_dict {V} (items : list (string * V)) : list (string * V) :=
  fold_left (fun d kv => dict_set (fst kv) (snd kv) d) items [].

(** [needle in haystack] on two [str]. *)
Fixpoint str_contains (needle haystack : string) : bool :=
  String.prefix needle haystack ||
  match haystack with
  | EmptyString => false
  | String _ rest => str_contains needle rest
  end.

(** [x[k]] with a [str] key: only a dict can be subscripted that way. *)
Definition py_getitem (x : json) (k : string) : result json :=
  match x with
  | JObj d =>
      match dict_get k d with
      | Some v => Ok v
      | None => Raise (KeyError k)
      end
  | _ => Raise TypeError
  end.

(** [x.__contains__(k)] with a [str] key. *)
Definition py_contains (x : json) (k : string) : result bool :=
  match x with
  | JObj d => Ok (bool_decide (is_Some (dict_get k d)))
  | JStr s => Ok (str_contains k s)
  | JList l =>
      Ok (existsb (fun e => match e with JStr s => String.eqb s k | _ => false end) l)
  | _ => Raise AttributeError
  end.

(** [x.get(k, None)]. *)
Definition py_dict_get (x : json) (k : string) : result json :=
  match x with
  | JObj d => Ok (default JNull (dict_get k d))
  | _ => Raise AttributeError
  end.

(** Truth value of an object: [bool(x)], [if x:], [not x]. *)
Definition py_bool (x : json) : bool :=
  match x with
  | JNull => false
  | JBool b => b
  | JInt z => negb (z =? 0)%Z
  | JStr s => negb (String.eqb s "")
  | JList l => match l with [] => false | _ => true end
  | JObj d => match d with [] => false | _ => true end
  end.

Fixpoint chars_of (s : string) : list json :=
  match s with
  | EmptyString => []
  | String c rest => JStr (String c EmptyString) :: chars_of rest
  end.

(** [for e in x]. *)
Definition py_iter (x : json) : result (list json) :=
  match x with
  | JList l => Ok l
  | JObj d => Ok (map (fun kv => JStr (fst kv)) d)
  | JStr s => Ok (chars_of s)
  | _ => Raise TypeError
  end.

(** The parts of [str()] and [int()] that are not spelled out here: the
    printed form of a list or dict, and the parsing of an integer literal. *)
Class python_builtins := {
  repr_compound : json -> string;
  int_of_str : string -> result Z;
}.

Section Builtins.
Context `{python_builtins}.

Definition py_str (x : json) : string :=
  match x with
  | JStr s => s
  | JInt z => pretty z
  | JBool true => "True"
  | JBool false => "False"
  | JNull => "None"
  | _ => repr_compound x
  end.

Definition py_int (x : json) : result Z :=
  match x with
  | JInt z => Ok z
  | JBool b => Ok (if b then 1 else 0)%Z
  | JStr s => int_of_str s
  | _ => Raise TypeError
  end.
End Builtins.

(** ** Strings: [split], [strip] and the world-id pattern *)

(** [s.split(sep)] for a one-character separator. *)
Fixpoint py_split (sep : ascii) (s : string) : list string :=
  match s with
  | EmptyString => [EmptyString]
  | String c rest =>
      if Ascii.eqb c sep then EmptyString :: py_split sep rest
      else match py_split sep rest with
           | [] => [String c EmptyString]
           | w :: ws => String c w :: ws
           end
  end.

(** [l[i]] on a list. *)
Definition py_index {A} (l : list A) (i : nat) : result A :=
  match l !! i with
  | Some a => Ok a
  | None => Raise IndexError
  end.

Definition is_space (c : ascii) : bool :=
  let n := nat_of_ascii c in
  ((9 <=? n) && (n <=? 13)) || ((28 <=? n) && (n <=? 32)).

Fixpoint lstrip (s : string) : string :=
  match s with
  | EmptyString => EmptyString
  | String c rest => if is_space c then lstrip rest else s
  end.

Fixpoint rstrip (s : string) : string :=
  match s with
  | EmptyString => EmptyString
  | String c rest =>
      match rstrip rest with
      | EmptyString => if is_space c then EmptyString else String c EmptyString
      | r => String c r
      end
  end.

(** [s.strip()]. *)
Definition py_strip (s : string) : string := rstrip (lstrip s).

(** The character class [A-Za-z0-9]. *)
Definition in_A_Za_z0_9 (c : ascii) : bool :=
  let n := nat_of_ascii c in
  ((65 <=? n) && (n <=? 90)) || ((97 <=? n) && (n <=? 122))
  || ((48 <=? n) && (n <=? 57)).

(** [Pattern.sub(repl, s)] for a pattern of the shape [[cls]+]: scanning from
    the left, every maximal run of characters of the class is one match and
    is replaced by [repl]. [in_match] tells whether a match is open. *)
Fixpoint sub_class_plus (cls : ascii -> bool) (repl : string)
    (in_match : bool) (s : string) : string :=
  match s with
  | EmptyString => if in_match then repl else EmptyString
  | String c rest =>
      if cls c then sub_class_plus cls repl true rest
      else (if in_match then repl else EmptyString)
           +:+ String c (sub_class_plus cls repl false rest)
  end.

(** [WORLD_ID_CLEANSE_REGEX = regex.compile('[^A-Za-z0-9]+')], as the
    function [WORLD_ID_CLEANSE_REGEX.sub(repl, s)]. *)
Definition WORLD_ID_CLEANSE_REGEX_sub (repl s : string) : string :=
  sub_class_plus (fun c => negb (in_A_Za_z0_9 c)) repl false s.

(** What the specification says of the world id: the characters of the input
    that are letters or digits, in order. *)
Fixpoint keep_letters_digits (s : string) : string :=
  match s with
  | EmptyString => EmptyString
  | String c rest =>
      if in_A_Za_z0_9 c then String c (keep_letters_digits rest)
      else keep_letters_digits rest
  end.

(** ** The data classes the manager handles

    [Character], [external_character_info], [sentence], [EquipmentItem] and
    [context] are declared in other modules of the repository; the records
    below carry the attributes [game_manager.py] reads and the constructor
    arguments it passes, under their names. *)

Record EquipmentItem := { item_name : json }.

Module Character.
Record t := make {
  base_id : string;
  ref_id : string;
  name : string;
  gender : Z;
  race : string;
  is_player_character : bool;
  bio : string;
  is_in_combat : bool;
  is_enemy : bool;
  relationship_rank : Z;
  is_generic_npc : bool;
  ingame_voice_model : string;
  tts_voice_model : string;
  csv_in_game_voice_model : string;
  advanced_voice_model : string;
  voice_accent : string;
  equipment : list (string * EquipmentItem);
  custom_values : json;
}.
End Character.

Module external_character_info.
Record t := make {
  bio : string;
  tts_voice_model : string;
  csv_in_game_voice_model : string;
  advanced_voice_model : string;
  voice_accent : string;
  is_generic_npc : bool;
  name : string;
  ingame_voice_model : string;
}.
End external_character_info.

Module sentence.
Record t := make {
  speaker : Character.t;
  sentence : string;
  voice_file : string;
  voice_line_duration : json;
  actions : list string;
  error_message : option string;
}.
End sentence.

(** The six locals of [load_character] that hold the enrichment of a
    character: [bio], [tts_voice_model], [csv_in_game_voice_model],
    [advanced_voice_model], [voice_accent], [is_generic_npc]. *)
Record enrichment := {
  e_bio : string;
  e_tts_voice_model : string;
  e_csv_in_game_voice_model : string;
  e_advanced_voice_model : string;
  e_voice_accent : string;
  e_is_generic_npc : bool;
}.

Definition enrichment_of (ch : Character.t) : enrichment :=
  {| e_bio := Character.bio ch;
     e_tts_voice_model := Character.tts_voice_model ch;
     e_csv_in_game_voice_model := Character.csv_in_game_voice_model ch;
     e_advanced_voice_model := Character.advanced_voice_model ch;
     e_voice_accent := Character.voice_accent ch;
     e_is_generic_npc := Character.is_generic_npc ch |}.

Definition enrichment_of_info (i : external_character_info.t) : enrichment :=
  {| e_bio := external_character_info.bio i;
     e_tts_voice_model := external_character_info.tts_voice_model i;
     e_csv_in_game_voice_model := external_character_info.csv_in_game_voice_model i;
     e_advanced_voice_model := external_character_info.advanced_voice_model i;
     e_voice_accent := external_character_info.voice_accent i;
     e_is_generic_npc := external_character_info.is_generic_npc i |}.

(** The values the six locals are initialised with (lines 170-175). *)
Definition no_enrichment : enrichment :=
  {| e_bio := ""; e_tts_voice_model := ""; e_csv_in_game_voice_model := "";
     e_advanced_voice_model := ""; e_voice_accent := "";
     e_is_generic_npc := false |}.

(** Modelled from the spec: the class [context] (src/conversation/context.py
    is not part of the sources). The spec's ConversationSession holds
    "a world/scene identifier", "the mapping of reference id ->
    CharacterRecord" and "the latest scene context (location, timestamp,
    list of event descriptions, weather description, custom values)". *)
Module context.
Record t := make {
  world_id : string;
  npcs_in_conversation : gmap string Character.t;
  location : json;
  ingame_time : json;
  ingame_events : json;
  weather : string;
  custom_context_values : json;
}.

(** Modelled from the spec: the constructor [context(world_id, ...)]; a
    session is created with no character and no scene. *)
Definition new (w : string) : t :=
  {| world_id := w; npcs_in_conversation := ∅; location := JNull;
     ingame_time := JNull; ingame_events := JList []; weather := "";
     custom_context_values := JObj [] |}.

(** Each character of the list is stored under its reference id, replacing
    the record stored there, if any. *)
Definition store (chs : list Character.t) (m : gmap string Character.t)
  : gmap string Character.t :=
  fold_left (fun m ch => <[Character.ref_id ch := ch]> m) chs m.

Definition set_npcs (m : gmap string Character.t) (ctx : t) : t :=
  {| world_id := world_id ctx; npcs_in_conversation := m;
     location := location ctx; ingame_time := ingame_time ctx;
     ingame_events := ingame_events ctx; weather := weather ctx;
     custom_context_values := custom_context_values ctx |}.

Definition set_scene (loc time events : json) (w : string) (custom : json)
    (ctx : t) : t :=
  {| world_id := world_id ctx;
     npcs_in_conversation := npcs_in_conversation ctx;
     location := loc; ingame_time := time; ingame_events := events;
     weather := w; custom_context_values := custom |}.
End context.

(** ** Collaborators *)

(** The constants of [communication_constants] that the manager uses. *)
Class communication_constants := {
  KEY_REPLYTYPE : string;
  KEY_REPLYTTYPE_STARTCONVERSATIONCOMPLETED : string;
  KEY_REPLYTYPE_NPCTALK : string;
  KEY_REPLYTYPE_ENDCONVERSATION : string;
  KEY_REQUESTTYPE_PLAYERINPUT : string;
  KEY_REQUEST_EXTRA_ACTIONS : string;
  ACTION_RELOADCONVERSATION : string;
  KEY_STARTCONVERSATION_WORLDID : string;
  KEY_ACTORS : string;
  KEY_CONTEXT : string;
  KEY_CONTEXT_LOCATION : string;
  KEY_CONTEXT_TIME : string;
  KEY_CONTEXT_INGAMEEVENTS : string;
  KEY_CONTEXT_WEATHER : string;
  KEY_CONTEXT_CUSTOMVALUES : string;
  KEY_ACTOR_BASEID : string;
  KEY_ACTOR_REFID : string;
  KEY_ACTOR_NAME : string;
  KEY_ACTOR_GENDER : string;
  KEY_ACTOR_RACE : string;
  KEY_ACTOR_VOICETYPE : string;
  KEY_ACTOR_ISINCOMBAT : string;
  KEY_ACTOR_ISENEMY : string;
  KEY_ACTOR_RELATIONSHIPRANK : string;
  KEY_ACTOR_CUSTOMVALUES : string;
  KEY_ACTOR_EQUIPMENT : string;
  KEY_ACTOR_ISPLAYER : string;
  KEY_ACTOR_PC_VOICEMODEL : string;
  KEY_ACTOR_SPEAKER : string;
  KEY_ACTOR_LINETOSPEAK : string;
  KEY_ACTOR_VOICEFILE : string;
  KEY_ACTOR_DURATION : string;
  KEY_ACTOR_ACTIONS : string;
}.

(** The interface [gameable], as far as the manager calls it. *)
Class gameable := {
  load_external_character_info :
    string -> string -> string -> Z -> string -> result external_character_info.t;
  get_weather_description : json -> result string;
  prepare_sentence_for_game : sentence.t -> context.t -> result sentence.t;
}.

(** The two settings of [ConfigLoader] that [load_character] reads. *)
Class ConfigLoader := {
  voice_player_input : bool;
  player_voice_model : string;
}.

(** [utils.convert_to_skyrim_hex_format]. *)
Class utils := {
  convert_to_skyrim_hex_format : string -> result string;
}.

(** The dialogue side of a [conversation] (transcript, generation backend,
    memory): a state of type [D] and what each call does to it. *)
Class conversation_engine (D : Type) := {
  engine_new : context.t -> D;
  engine_start_conversation : context.t -> D -> D;
  engine_reload_conversation : context.t -> D -> D;
  engine_continue_conversation :
    context.t -> bool -> D -> string * option sentence.t * D;
  engine_process_player_input : json -> context.t -> D -> D;
  engine_end : context.t -> D -> D;
}.

(** ** The session object

    Modelled from the spec: the class [conversation]
    (src/conversation/conversation.py is not part of the sources). Section
    4.2 of the spec gives its operations: [updateContext] "merges the result
    into the session's character mapping (insert if new, replace ... if
    existing)" and "replaces location/time/events/weather/custom-values
    wholesale"; [end] "releases the memory collaborator's resources for this
    session and discards all CharacterRecords"; the queries
    [containsCharacter] and [getCharacter] look a reference id up. *)
Module conversation.
Section ops.
Context {D : Type} `{conversation_engine D}.

Record t := make {
  context : context.t;
  has_already_ended : bool;
  dialogue : D;
}.

Definition new (ctx : context.t) : t :=
  {| context := ctx; has_already_ended := false; dialogue := engine_new ctx |}.

Definition contains_character (ref_id : string) (c : t) : bool :=
  bool_decide (is_Some (context.npcs_in_conversation (context c) !! ref_id)).

Definition get_character (ref_id : string) (c : t) : option Character.t :=
  context.npcs_in_conversation (context c) !! ref_id.

Definition add_or_update_character (new_character : list Character.t) (c : t) : t :=
  {| context :=
       context.set_npcs
         (context.store new_character
            (context.npcs_in_conversation (context c)))
         (context c);
     has_already_ended := has_already_ended c;
     dialogue := dialogue c |}.

Definition update_context (loc time events : json) (w : string)
    (custom : json) (c : t) : t :=
  {| context := context.set_scene loc time events w custom (context c);
     has_already_ended := has_already_ended c;
     dialogue := dialogue c |}.

Definition start_conversation (c : t) : t :=
  {| context := context c; has_already_ended := has_already_ended c;
     dialogue := engine_start_conversation (context c) (dialogue c) |}.

Definition reload_conversation (c : t) : t :=
  {| context := context c; has_already_ended := has_already_ended c;
     dialogue := engine_reload_conversation (context c) (dialogue c) |}.

Definition continue_conversation (c : t) : string * option sentence.t * t :=
  let '(replyType, sentence_to_play, d) :=
    engine_continue_conversation (context c) (has_already_ended c) (dialogue c) in
  (replyType, sentence_to_play,
   {| context := context c; has_already_ended := has_already_ended c;
      dialogue := d |}).

Definition process_player_input (player_text : json) (c : t) : t :=
  {| context := context c; has_already_ended := has_already_ended c;
     dialogue := engine_process_player_input player_text (context c) (dialogue c) |}.

Definition end_ (c : t) : t :=
  {| context := context.set_npcs ∅ (context c);
     has_already_ended := true;
     dialogue := engine_end (context c) (dialogue c) |}.

End ops.
Arguments t D : clear implicits.
End conversation.

(** ** Calls made to collaborators, in the order they happen *)

Inductive event : Type :=
| talk_end_called (world_id : string)
| conversation_created (ctx : context.t)
| talk_start_conversation_called
| talk_reload_conversation_called
| talk_continue_conversation_called
| talk_process_player_input_called (player_text : json)
| load_external_character_info_called
    (base_id character_name race : string) (gender : Z) (actor_voice_model : string)
| get_weather_description_called (w : json)
| prepare_sentence_for_game_called (s : sentence.t)
| logging_log (level : Z) (msg : string).

(** The events that create or end a session object. *)
Definition is_lifecycle (e : event) : bool :=
  match e with
  | talk_end_called _ | conversation_created _ => true
  | _ => false
  end.

Definition newline : string := String "010" EmptyString.

(** ** The manager *)

Section GameStateManager.
Context {D : Type}.
Context `{python_builtins} `{communication_constants} `{gameable}
        `{ConfigLoader} `{utils} `{conversation_engine D}.

(** The mutable part of a [GameStateManager]: [self.__talk]. *)
Record GameStateManager := {
  talk : option (conversation.t D);
}.

(** A method of the manager: from the manager's state to a returned value or
    a raised exception, the new state, and the calls made on the way. *)
Definition M (A : Type) : Type :=
  GameStateManager -> result A * GameStateManager * list event.

#[global] Instance M_ret : MRet M := fun _ a st => (Ok a, st, []).
#[global] Instance M_bind : MBind M := fun _ _ f m st =>
  match m st with
  | (Ok a, st', tr) => let '(r, st'', tr') := f a st' in (r, st'', tr ++ tr')
  | (Raise e, st', tr) => (Raise e, st', tr)
  end.

Definition lift {A} (r : result A) : M A := fun st => (r, st, []).
Definition emit (e : event) : M unit := fun st => (Ok tt, st, [e]).
Definition get_talk : M (option (conversation.t D)) :=
  fun st => (Ok (talk st), st, []).
Definition set_talk (t : option (conversation.t D)) : M unit :=
  fun _ => (Ok tt, {| talk := t |}, []).

(** [try: body except CharacterDoesNotExist: handler]. *)
Definition try_except_CharacterDoesNotExist {A} (body handler : M A) : M A :=
  fun st =>
    match body st with
    | (Raise CharacterDoesNotExist, st', tr) =>
        let '(r, st'', tr') := handler st' in (r, st'', tr ++ tr')
    | other => other
    end.

(** [self.__talk.m(...)] for a method [m] of the session that returns a
    value: the session object is updated in place. *)
Definition call_talk {A} (e : list event)
    (m : conversation.t D -> A * conversation.t D) : M A :=
  fun st =>
    match talk st with
    | Some c => let '(a, c') := m c in (Ok a, {| talk := Some c' |}, e)
    | None => (Raise AttributeError, st, [])
    end.

Definition talk_end : M unit :=
  t ← get_talk;
  call_talk (match t with
             | Some c => [talk_end_called (context.world_id (conversation.context c))]
             | None => []
             end)
            (fun c => (tt, conversation.end_ c)).

(** [error_message] (lines 226-230). *)
Definition error_message (message : string) : json :=
  JObj (py_dict [(KEY_REPLYTYPE, JStr "error"); ("mantella_message", JStr message)]).

(** [__get_player_voice_model] (lines 232-235). *)
Definition get_player_voice_model (game_value : option string) : string :=
  match game_value with
  | None => player_voice_model
  | Some v => v
  end.

(** [__convert_to_equipment_item_dictionary] (lines 237-242). *)
Definition convert_to_equipment_item_dictionary (input_dict : json)
  : result (list (string * EquipmentItem)) :=
  if py_bool input_dict then
    match input_dict with
    | JObj items =>
        Ok (fold_left
              (fun result si => dict_set (fst si) {| item_name := snd si |} result)
              items [])
    | _ => Raise AttributeError
    end
  else Ok [].

(** [character_to_json] and [sentence_to_json] (lines 97-110). *)
Definition character_to_json (character_to_jsonfy : Character.t) : json :=
  JObj (py_dict [(KEY_ACTOR_BASEID, JStr (Character.base_id character_to_jsonfy));
                 (KEY_ACTOR_NAME, JStr (Character.name character_to_jsonfy))]).

Definition sentence_to_json (sentence_to_prepare : sentence.t) : json :=
  JObj (py_dict
    [(KEY_ACTOR_SPEAKER, JStr (Character.name (sentence.speaker sentence_to_prepare)));
     (KEY_ACTOR_LINETOSPEAK, JStr (py_strip (sentence.sentence sentence_to_prepare)));
     (KEY_ACTOR_VOICEFILE, JStr (sentence.voice_file sentence_to_prepare));
     (KEY_ACTOR_DURATION, sentence.voice_line_duration sentence_to_prepare);
     (KEY_ACTOR_ACTIONS, JList (map JStr (sentence.actions sentence_to_prepare)))]).

(** *** [load_character] (lines 149-224) *)

(** The values read from the actor's JSON before the session is consulted
    (lines 152-169 and 176). *)
Record actor_fields := {
  af_base_id : string;
  af_ref_id : string;
  af_character_name : string;
  af_gender : Z;
  af_race : string;
  af_actor_voice_model : string;
  af_ingame_voice_model : string;
  af_is_in_combat : bool;
  af_is_enemy : bool;
  af_relationship_rank : Z;
  af_custom_values : json;
  af_equipment : list (string * EquipmentItem);
  af_is_player_character : bool;
}.

(** [actor_voice_model.split('<')[1].split(' ')[0]] (line 158). *)
Definition voice_token (actor_voice_model : string) : result string :=
  part ← py_index (py_split "<" actor_voice_model) 1;
  py_index (py_split " " part) 0.

Definition read_actor (json : json) : result actor_fields :=
  base_id ← py_getitem json KEY_ACTOR_BASEID
             ≫= (fun v => convert_to_skyrim_hex_format (py_str v));
  ref_id ← py_getitem json KEY_ACTOR_REFID
            ≫= (fun v => convert_to_skyrim_hex_format (py_str v));
  character_name ← py_str <$> py_getitem json KEY_ACTOR_NAME;
  gender ← py_getitem json KEY_ACTOR_GENDER ≫= py_int;
  race ← py_str <$> py_getitem json KEY_ACTOR_RACE;
  actor_voice_model ← py_str <$> py_getitem json KEY_ACTOR_VOICETYPE;
  ingame_voice_model ← voice_token actor_voice_model;
  is_in_combat ← py_bool <$> py_getitem json KEY_ACTOR_ISINCOMBAT;
  is_enemy ← py_bool <$> py_getitem json KEY_ACTOR_ISENEMY;
  relationship_rank ← py_getitem json KEY_ACTOR_RELATIONSHIPRANK ≫= py_int;
  has_custom_values ← py_contains json KEY_ACTOR_CUSTOMVALUES;
  custom_values ←
    (if has_custom_values : bool then
       v ← py_getitem json KEY_ACTOR_CUSTOMVALUES;
       mret (if py_bool v then v else JObj [])
     else mret (JObj []));
  has_equipment ← py_contains json KEY_ACTOR_EQUIPMENT;
  equipment ←
    (if has_equipment : bool then
       py_getitem json KEY_ACTOR_EQUIPMENT ≫= convert_to_equipment_item_dictionary
     else mret []);
  is_player_character ← py_bool <$> py_getitem json KEY_ACTOR_ISPLAYER;
  mret {| af_base_id := base_id; af_ref_id := ref_id;
          af_character_name := character_name; af_gender := gender;
          af_race := race; af_actor_voice_model := actor_voice_model;
          af_ingame_voice_model := ingame_voice_model;
          af_is_in_combat := is_in_combat; af_is_enemy := is_enemy;
          af_relationship_rank := relationship_rank;
          af_custom_values := custom_values; af_equipment := equipment;
          af_is_player_character := is_player_character |}.

(** [self.__game.load_external_character_info(...)]. *)
Definition game_load_external_character_info
    (base_id character_name race : string) (gender : Z)
    (actor_voice_model : string) : M external_character_info.t :=
  emit (load_external_character_info_called base_id character_name race gender
          actor_voice_model);;
  lift (load_external_character_info base_id character_name race gender
          actor_voice_model).

(** Lines 177-202: the values of [character_name], [ingame_voice_model] and
    of the six enrichment locals when the [Character] is built. *)
Definition resolve_enrichment (a : actor_fields)
  : M (string * string * enrichment) :=
  t ← get_talk;
  match t with
  | Some c =>
      if conversation.contains_character (af_ref_id a) c then
        match conversation.get_character (af_ref_id a) c with
        | Some already_loaded_character =>
            mret (af_character_name a, af_ingame_voice_model a,
                  enrichment_of already_loaded_character)
        | None =>
            mret (af_character_name a, af_ingame_voice_model a, no_enrichment)
        end
      else if negb (af_is_player_character a) then
        external_info ←
          game_load_external_character_info (af_base_id a)
            (af_character_name a) (af_race a) (af_gender a)
            (af_actor_voice_model a);
        if external_character_info.is_generic_npc external_info then
          mret (external_character_info.name external_info,
                external_character_info.ingame_voice_model external_info,
                enrichment_of_info external_info)
        else
          mret (af_character_name a, af_ingame_voice_model a,
                enrichment_of_info external_info)
      else if voice_player_input then
        has_voice ← lift (py_contains (af_custom_values a) KEY_ACTOR_PC_VOICEMODEL);
        tts_voice_model ←
          (if has_voice : bool then
             v ← lift (py_getitem (af_custom_values a) KEY_ACTOR_PC_VOICEMODEL);
             mret (get_player_voice_model (Some (py_str v)))
           else mret (get_player_voice_model None));
        mret (af_character_name a, af_ingame_voice_model a,
              {| e_bio := ""; e_tts_voice_model := tts_voice_model;
                 e_csv_in_game_voice_model := ""; e_advanced_voice_model := "";
                 e_voice_accent := ""; e_is_generic_npc := false |})
      else mret (af_character_name a, af_ingame_voice_model a, no_enrichment)
  | None => mret (af_character_name a, af_ingame_voice_model a, no_enrichment)
  end.

(** Lines 204-221: the [Character] returned. *)
Definition character_of (a : actor_fields)
    (character_name ingame_voice_model : string) (e : enrichment) : Character.t :=
  Character.make
    (af_base_id a) (af_ref_id a) character_name (af_gender a) (af_race a)
    (af_is_player_character a) (e_bio e) (af_is_in_combat a)
    (af_is_enemy a) (af_relationship_rank a) (e_is_generic_npc e)
    ingame_voice_model (e_tts_voice_model e)
    (e_csv_in_game_voice_model e) (e_advanced_voice_model e)
    (e_voice_accent e) (af_equipment a) (af_custom_values a).

Definition load_character (json : json) : M (option Character.t) :=
  try_except_CharacterDoesNotExist
    (a ← lift (read_actor json);
     '(character_name, ingame_voice_model, e) ← resolve_enrichment a;
     mret (Some (character_of a character_name ingame_voice_model e)))
    (emit (logging_log 23 "Restarting...");; mret None).

(** *** [__update_context] (lines 114-132) *)

(** The loop of lines 117-120. *)
Fixpoint load_actors (actors : list json) (actors_in_json : list Character.t)
  : M (list Character.t) :=
  match actors with
  | [] => mret actors_in_json
  | actorJson :: rest =>
      actor ← load_character actorJson;
      load_actors rest
        (match actor with
         | Some ch => actors_in_json ++ [ch]
         | None => actors_in_json
         end)
  end.

(** [self.__game.get_weather_description(...)]. *)
Definition game_get_weather_description (w : json) : M string :=
  emit (get_weather_description_called w);;
  lift (get_weather_description w).

(** Lines 123-131: the scene read from the request. *)
Definition read_scene (request : json) : M (json * json * json * string * json) :=
  ctx ← lift (py_getitem request KEY_CONTEXT);
  location ← lift (py_dict_get ctx KEY_CONTEXT_LOCATION);
  time ← lift (py_getitem ctx KEY_CONTEXT_TIME);
  ingame_events ← lift (py_getitem ctx KEY_CONTEXT_INGAMEEVENTS);
  has_weather ← lift (py_contains ctx KEY_CONTEXT_WEATHER);
  weather ←
    (if has_weather : bool then
       lift (py_getitem ctx KEY_CONTEXT_WEATHER) ≫= game_get_weather_description
     else mret "");
  has_custom ← lift (py_contains ctx KEY_CONTEXT_CUSTOMVALUES);
  custom_context_values ←
    (if has_custom : bool then lift (py_getitem ctx KEY_CONTEXT_CUSTOMVALUES)
     else mret (JObj []));
  mret (location, time, ingame_events, weather, custom_context_values).

Definition update_context (json : json) : M unit :=
  t ← get_talk;
  match t with
  | Some _ =>
      actors ← lift (py_getitem json KEY_ACTORS ≫= py_iter);
      actors_in_json ← load_actors actors [];
      call_talk [] (fun c => (tt, conversation.add_or_update_character actors_in_json c));;
      '(location, time, ingame_events, weather, custom_context_values) ←
        read_scene json;
      call_talk [] (fun c =>
        (tt, conversation.update_context location time ingame_events weather
               custom_context_values c))
  | None => mret tt
  end.

(** *** The request handlers (lines 42-93) *)

(** Lines 46-49: the world id of the session to create. [Pattern.sub]
    raises [TypeError] on anything but a [str]. *)
Definition requested_world_id (input_json : json) : result string :=
  has_world_id ← py_contains input_json KEY_STARTCONVERSATION_WORLDID;
  if has_world_id : bool then
    world_id ← py_getitem input_json KEY_STARTCONVERSATION_WORLDID;
    match world_id with
    | JStr s => Ok (WORLD_ID_CLEANSE_REGEX_sub "" s)
    | _ => Raise TypeError
    end
  else Ok "default".

Definition start_conversation (input_json : json) : M json :=
  t ← get_talk;
  match t with
  | Some _ => talk_end;; set_talk None
  | None => mret tt
  end;;
  world_id ← lift (requested_world_id input_json);
  let context_for_conversation := context.new world_id in
  emit (conversation_created context_for_conversation);;
  set_talk (Some (conversation.new context_for_conversation));;
  update_context input_json;;
  call_talk [talk_start_conversation_called]
    (fun c => (tt, conversation.start_conversation c));;
  mret (JObj (py_dict [(KEY_REPLYTYPE, JStr KEY_REPLYTTYPE_STARTCONVERSATIONCOMPLETED)])).

(** Truth value of [sentence_to_play.error_message]. *)
Definition carries_error (s : sentence.t) : option string :=
  match sentence.error_message s with
  | Some msg => if String.eqb msg "" then None else Some msg
  | None => None
  end.

(** [self.__game.prepare_sentence_for_game(s, self.__talk.context, config)];
    the sentence object is updated in place. *)
Definition game_prepare_sentence_for_game (s : sentence.t) : M sentence.t :=
  t ← get_talk;
  match t with
  | Some c =>
      emit (prepare_sentence_for_game_called s);;
      lift (prepare_sentence_for_game s (conversation.context c))
  | None => lift (Raise AttributeError)
  end.

Definition continue_conversation (input_json : json) : M json :=
  t ← get_talk;
  match t with
  | None => mret (error_message "No running conversation at this point")
  | Some _ =>
      has_extra ← lift (py_contains input_json KEY_REQUEST_EXTRA_ACTIONS);
      (if has_extra : bool then
         extra_actions ← lift (py_getitem input_json KEY_REQUEST_EXTRA_ACTIONS);
         reload ← lift (py_contains extra_actions ACTION_RELOADCONVERSATION);
         if reload : bool then
           call_talk [talk_reload_conversation_called]
             (fun c => (tt, conversation.reload_conversation c))
         else mret tt
       else mret tt);;
      '(replyType, sentence_to_play) ←
        call_talk [talk_continue_conversation_called]
          conversation.continue_conversation;
      let reply := py_dict [(KEY_REPLYTYPE, JStr replyType)] in
      match sentence_to_play with
      | Some s =>
          match carries_error s with
          | None =>
              s' ← game_prepare_sentence_for_game s;
              mret (JObj (dict_set KEY_REPLYTYPE_NPCTALK (sentence_to_json s') reply))
          | Some msg =>
              talk_end;;
              mret (error_message msg)
          end
      | None => mret (JObj reply)
      end
  end.

Definition player_input (input_json : json) : M json :=
  t ← get_talk;
  match t with
  | None => mret (error_message "No running conversation at this point")
  | Some _ =>
      player_text ← lift (py_getitem input_json KEY_REQUESTTYPE_PLAYERINPUT);
      update_context input_json;;
      call_talk [talk_process_player_input_called player_text]
        (fun c => (tt, conversation.process_player_input player_text c));;
      mret (JObj (py_dict [(KEY_REPLYTYPE, JStr KEY_REPLYTYPE_NPCTALK)]))
  end.

Definition end_conversation (input_json : json) : M json :=
  t ← get_talk;
  match t with
  | Some _ => talk_end;; set_talk None
  | None => mret tt
  end;;
  emit (logging_log 24
    (newline +:+ "Conversations not starting when you select an NPC? See here:"
     +:+ newline
     +:+ "https://art-from-the-machine.github.io/Mantella/pages/issues_qna"));;
  emit (logging_log 24 (newline +:+ "Waiting for player to select an NPC..."));;
  mret (JObj (py_dict [(KEY_REPLYTYPE, JStr KEY_REPLYTYPE_ENDCONVERSATION)])).

(** A run of requests, each served in the state the previous one left;
    a request that raises leaves the state it reached. *)
Fixpoint serve {A} (handler : json -> M A) (requests : list json)
    (st : GameStateManager) : GameStateManager * list event :=
  match requests with
  | [] => (st, [])
  | r :: rest =>
      let '(_, st', tr) := handler r st in
      let '(st'', tr') := serve handler rest st' in
      (st'', tr ++ tr')
  end.

(** The characters that a batch of actors yields in a given state: those of
    the actors for which [load_character] returns a record. *)
Definition loaded (st : GameStateManager) (actors : list json)
  : list Character.t :=
  omap (fun actorJson =>
          match load_character actorJson st with
          | (Ok (Some ch), _, _) => Some ch
          | _ => None
          end) actors.

(** The calls that [load_character] makes for a batch of actors. *)
Definition loading_trace (st : GameStateManager) (actors : list json)
  : list event :=
  concat (map (fun actorJson => snd (load_character actorJson st)) actors).

(** The record of line 223. *)
Definition restarting : event := logging_log 23 "Restarting...".

(** The reply of lines 59 and 79, and the two records of lines 91-92. *)
Definition no_session_reply : json :=
  error_message "No running conversation at this point".

Definition end_conversation_log : list event :=
  [logging_log 24
     (newline +:+ "Conversations not starting when you select an NPC? See here:"
      +:+ newline
      +:+ "https://art-from-the-machine.github.io/Mantella/pages/issues_qna");
   logging_log 24 (newline +:+ "Waiting for player to select an NPC...")].

End GameStateManager.

Arguments GameStateManager D : clear implicits.

(** ** Instances used by the examples *)

Definition digit_of (c : ascii) : option Z :=
  let n := nat_of_ascii c in
  if (48 <=? n) && (n <=? 57) then Some (Z.of_nat (n - 48)) else None.

Fixpoint decimal (acc : Z) (s : string) : option Z :=
  match s with
  | EmptyString => Some acc
  | String c rest =>
      match digit_of c with
      | Some d => decimal (10 * acc + d) rest
      | None => None
      end
  end.

(** Integer literals of the examples: decimal digits, possibly after [-]. *)
Definition example_int_of_str (s : string) : result Z :=
  match s with
  | EmptyString => Raise ValueError
  | String "-" (String c rest) =>
      match decimal 0 (String c rest) with
      | Some z => Ok (- z)%Z
      | None => Raise ValueError
      end
  | _ =>
      match decimal 0 s with
      | Some z => Ok z
      | None => Raise ValueError
      end
  end.

(** The examples print no list and no dict. *)
Definition example_builtins : python_builtins :=
  {| repr_compound := fun _ => "[...]"; int_of_str := example_int_of_str |}.

Definition hex_digit (z : Z) : ascii :=
  ascii_of_nat (Z.to_nat (if (z <? 10)%Z then 48 + z else 55 + z)%Z).

Fixpoint hex_digits (n : nat) (z : Z) (acc : string) : string :=
  match n with
  | O => acc
  | S n' => hex_digits n' (z / 16) (String (hex_digit (z mod 16)) acc)
  end.

(** Modelled from the spec: [utils.convert_to_skyrim_hex_format] (src/utils.py
    is not part of the sources). "Parse and normalize base id and reference
    id into the game's canonical hex-identifier form (fails loudly --
    propagates a 'character identity unresolvable' condition if parsing
    fails". Here the identifier is a decimal number and the canonical form
    has eight hexadecimal digits. *)
Definition example_convert_to_skyrim_hex_format (identifier : string)
  : result string :=
  match identifier with
  | EmptyString => Raise CharacterDoesNotExist
  | _ =>
      match decimal 0 identifier with
      | Some z => Ok (hex_digits 8 z EmptyString)
      | None => Raise CharacterDoesNotExist
      end
  end.

Definition example_utils : utils :=
  {| convert_to_skyrim_hex_format := example_convert_to_skyrim_hex_format |}.

(** Modelled from the spec: the constants of [communication_constants]
    (src/http/communication_constants.py is not part of the sources), with
    the field names of section 6 of the spec where it gives them. *)
Definition example_constants : communication_constants :=
  {| KEY_REPLYTYPE := "reply_type";
     KEY_REPLYTTYPE_STARTCONVERSATIONCOMPLETED := "start_completed";
     KEY_REPLYTYPE_NPCTALK := "npc_talk";
     KEY_REPLYTYPE_ENDCONVERSATION := "end_conversation";
     KEY_REQUESTTYPE_PLAYERINPUT := "player_input";
     KEY_REQUEST_EXTRA_ACTIONS := "extra_action_tags";
     ACTION_RELOADCONVERSATION := "reload_conversation";
     KEY_STARTCONVERSATION_WORLDID := "scene_id";
     KEY_ACTORS := "actors";
     KEY_CONTEXT := "context";
     KEY_CONTEXT_LOCATION := "location";
     KEY_CONTEXT_TIME := "time";
     KEY_CONTEXT_INGAMEEVENTS := "ingame_events";
     KEY_CONTEXT_WEATHER := "weather";
     KEY_CONTEXT_CUSTOMVALUES := "custom_values";
     KEY_ACTOR_BASEID := "base_id";
     KEY_ACTOR_REFID := "ref_id";
     KEY_ACTOR_NAME := "name";
     KEY_ACTOR_GENDER := "gender";
     KEY_ACTOR_RACE := "race";
     KEY_ACTOR_VOICETYPE := "voice_type";
     KEY_ACTOR_ISINCOMBAT := "is_in_combat";
     KEY_ACTOR_ISENEMY := "is_enemy";
     KEY_ACTOR_RELATIONSHIPRANK := "relationship_rank";
     KEY_ACTOR_CUSTOMVALUES := "custom_values";
     KEY_ACTOR_EQUIPMENT := "equipment";
     KEY_ACTOR_ISPLAYER := "is_player";
     KEY_ACTOR_PC_VOICEMODEL := "pc_voice_model";
     KEY_ACTOR_SPEAKER := "speaker";
     KEY_ACTOR_LINETOSPEAK := "line_to_speak";
     KEY_ACTOR_VOICEFILE := "voice_file";
     KEY_ACTOR_DURATION := "duration";
     KEY_ACTOR_ACTIONS := "actions" |}.

(** A game whose lookup table knows every actor, and holds every actor
    named "Guard" for an instance of a generic template. *)
Definition example_game : gameable :=
  {| load_external_character_info := fun base_id name race gender voice =>
       Ok (external_character_info.make
             ("Biography of " +:+ name) ("tts-" +:+ voice) ("csv-" +:+ voice)
             ("adv-" +:+ voice) "en" (String.eqb name "Guard")
             "Whiterun Guard" "MaleGuard");
     get_weather_description := fun _ => Ok "The sky is clear.";
     prepare_sentence_for_game := fun s _ => Ok s |}.

Definition example_config : ConfigLoader :=
  {| voice_player_input := true; player_voice_model := "DefaultPlayerVoice" |}.

Definition example_speaker : Character.t :=
  Character.make "00013BA1" "0001A6A4" "Lydia" 1 "Nord" false "" false false 0
    false "FemaleEvenToned" "" "" "" "" [] (JObj []).

(** A generation backend that reports an oversized input as long as the
    player has said nothing, and otherwise produces a line. The dialogue
    state is the list of the player's inputs. *)
Definition example_engine : conversation_engine (list json) :=
  {| engine_new := fun _ => [];
     engine_start_conversation := fun _ d => d;
     engine_reload_conversation := fun _ d => d;
     engine_continue_conversation := fun _ _ d =>
       match d with
       | [] =>
           ("npc_talk",
            Some (sentence.make example_speaker "" "" (JInt 0) []
                    (Some "The text is too long")), d)
       | _ =>
           ("npc_talk",
            Some (sentence.make example_speaker " Hello there. " "line.wav"
                    (JInt 2) [] None), d)
       end;
     engine_process_player_input := fun text _ d => d ++ [text];
     engine_end := fun _ d => d |}.

(** An actor as the game sends it. *)
Definition example_actor (base_id ref_id : Z) (name : string)
    (is_player : bool) (custom_values : list (string * json)) : json :=
  JObj [("base_id", JInt base_id); ("ref_id", JInt ref_id);
        ("name", JStr name); ("gender", JInt 0); ("race", JStr "Nord");
        ("voice_type", JStr "[VoiceType <MaleNord (00013AD2)>]");
        ("is_in_combat", JBool false); ("is_enemy", JBool false);
        ("relationship_rank", JInt 0); ("custom_values", JObj custom_values);
        ("is_player", JBool is_player)].

(** An actor whose base id is not a number. *)
Definition example_unparsable_actor : json :=
  JObj [("base_id", JStr "not-a-number"); ("ref_id", JInt 77);
        ("name", JStr "Nobody"); ("gender", JInt 0); ("race", JStr "Nord");
        ("voice_type", JStr "[VoiceType <MaleNord (00013AD2)>]");
        ("is_in_combat", JBool false); ("is_enemy", JBool false);
        ("relationship_rank", JInt 0); ("is_player", JBool false)].

Definition example_scene : json :=
  JObj [("location", JStr "Whiterun"); ("time", JInt 14);
        ("ingame_events", JList [])].

Definition example_request (actors : list json) : json :=
  JObj [("actors", JList actors); ("context", example_scene)].

(** A character as a session holds it after its first resolution. *)
Definition example_lydia : Character.t :=
  Character.make "00013BA1" "0001A6A4" "Lydia" 1 "Nord" false
    "Housecarl of Whiterun" false false 3 false "FemaleEvenToned"
    "lydia-tts" "lydia-csv" "lydia-advanced" "nordic" [] (JObj []).

(** A running session that holds this character. *)
Definition example_session : conversation.t (list json) :=
  @conversation.add_or_update_character _ [example_lydia]
    (@conversation.new _ example_engine (context.new "Whiterun")).

(** ** Predicates used to state properties of strings *)

(** Every character of the string satisfies the test. *)
Fixpoint all_chars (p : ascii -> bool) (s : string) : bool :=
  match s with
  | EmptyString => true
  | String c rest => p c && all_chars p rest
  end.

(** The character occurs in the string. *)
Fixpoint has_char (c : ascii) (s : string) : bool :=
  match s with
  | EmptyString => false
  | String c' rest => Ascii.eqb c' c || has_char c rest
  end.

(** [sep.join(words)] for a one-character separator. *)
Fixpoint py_join (sep : ascii) (words : list string) : string :=
  match words with
  | [] => EmptyString
  | [w] => w
  | w :: ws => w +:+ String sep (py_join sep ws)
  end.

(** The string is empty or begins with one of the two characters. *)
Definition stops_at (c1 c2 : ascii) (s : string) : bool :=
  match s with
  | EmptyString => true
  | String c _ => Ascii.eqb c c1 || Ascii.eqb c c2
  end.

(** A game whose lookup table knows nobody. *)
Definition example_game_without_table : gameable :=
  {| load_external_character_info := fun _ _ _ _ _ =>
       Raise CharacterDoesNotExist;
     get_weather_description := fun _ => Ok "The sky is clear.";
     prepare_sentence_for_game := fun s _ => Ok s |}.

(** A scene without time. *)
Definition example_scene_without_time : json :=
  JObj [("location", JStr "Whiterun"); ("ingame_events", JList [])].

(** A scene with a weather code. *)
Definition example_scene_with_weather : list (string * json) :=
  [("time", JInt 9); ("ingame_events", JList [JStr "A dragon roars."]);
   ("weather", JInt 3)].

Abbreviation example_state := (GameStateManager (list json)).

(** * Properties *)

Section Properties.
Context {D : Type}.
Context `{python_builtins} `{communication_constants} `{gameable}
        `{ConfigLoader} `{utils} `{conversation_engine D}.

Abbreviation state := (GameStateManager D).
Abbreviation Idle := ({| talk := None |} : GameStateManager D).
Abbreviation Active c := ({| talk := Some c |} : GameStateManager D).

Ltac mstep :=
  unfold mbind, M_bind, mret, M_ret, lift, emit, get_talk, set_talk,
    call_talk; simpl.

(** ** The world-id pattern *)

Lemma sub_class_plus_empty_repl (cls : ascii -> bool) (b : bool) (s : string) :
  sub_class_plus cls "" b s
  = sub_class_plus cls "" false s.
Proof.
  revert b. induction s as [|c s IH]; intros b; simpl.
  - by destruct b.
  - destruct (cls c); [done|]. by destruct b.
Qed.

Lemma WORLD_ID_CLEANSE_REGEX_sub_keeps_letters_digits (s : string) :
  WORLD_ID_CLEANSE_REGEX_sub "" s = keep_letters_digits s.
Proof.
  unfold WORLD_ID_CLEANSE_REGEX_sub.
  induction s as [|c s IH]; simpl; [done|].
  destruct (in_A_Za_z0_9 c); simpl.
  - by rewrite IH.
  - by rewrite sub_class_plus_empty_repl.
Qed.

(** C4. With no session ([self.__talk] is [None]), [continue_conversation]
    and [player_input] answer every request with the error reply
    "No running conversation at this point"; the manager's state is what it
    was, still without a session, and no collaborator has been called. *)
Theorem no_session_is_a_protocol_error (input_json : json) :
  continue_conversation input_json Idle = (Ok no_session_reply, Idle, [])
  /\ player_input input_json Idle = (Ok no_session_reply, Idle, [])
  /\ no_session_reply
     = JObj (py_dict [(KEY_REPLYTYPE, JStr "error");
                      ("mantella_message",
                       JStr "No running conversation at this point")]).
Proof. repeat split. Qed.

Lemma end_conversation_idle (input_json : json) :
  end_conversation input_json Idle
  = (Ok (JObj (py_dict [(KEY_REPLYTYPE, JStr KEY_REPLYTYPE_ENDCONVERSATION)])),
     Idle, end_conversation_log).
Proof. reflexivity. Qed.

Lemma end_conversation_active (input_json : json) (c : conversation.t D) :
  end_conversation input_json (Active c)
  = (Ok (JObj (py_dict [(KEY_REPLYTYPE, JStr KEY_REPLYTYPE_ENDCONVERSATION)])),
     Idle,
     talk_end_called (context.world_id (conversation.context c))
       :: end_conversation_log).
Proof. reflexivity. Qed.

(** C9. [end_conversation] succeeds in every state and returns the reply
    whose type is [KEY_REPLYTYPE_ENDCONVERSATION]; it leaves the manager
    without a session; a second call returns the same reply and leaves the
    same state; with no session it changes nothing and calls no
    collaborator (it only writes its two log records). *)
Theorem end_conversation_idempotent (j1 j2 : json) (st : state) :
  let reply :=
    JObj (py_dict [(KEY_REPLYTYPE, JStr KEY_REPLYTYPE_ENDCONVERSATION)]) in
  let '(r1, st1, _) := end_conversation j1 st in
  let '(r2, st2, tr2) := end_conversation j2 st1 in
  r1 = Ok reply /\ st1 = Idle
  /\ r2 = Ok reply /\ st2 = st1 /\ tr2 = end_conversation_log
  /\ end_conversation j1 Idle = (Ok reply, Idle, end_conversation_log).
Proof.
  destruct st as [[c|]].
  - rewrite end_conversation_active, end_conversation_idle. by repeat split.
  - rewrite !end_conversation_idle. by repeat split.
Qed.

(** ** [load_character], case by case *)

Lemma contains_character_Some (r : string) (c : conversation.t D)
    (ch : Character.t) :
  conversation.get_character r c = Some ch ->
  conversation.contains_character r c = true.
Proof.
  unfold conversation.get_character, conversation.contains_character.
  intros ->. by apply bool_decide_eq_true.
Qed.

Lemma contains_character_None (r : string) (c : conversation.t D) :
  conversation.get_character r c = None ->
  conversation.contains_character r c = false.
Proof.
  unfold conversation.get_character, conversation.contains_character.
  intros ->. apply bool_decide_eq_false. by intros [? ?].
Qed.

Lemma resolve_enrichment_idle (a : actor_fields) :
  resolve_enrichment a Idle
  = (Ok (af_character_name a, af_ingame_voice_model a, no_enrichment), Idle, []).
Proof. reflexivity. Qed.

Lemma resolve_enrichment_cached (a : actor_fields) (c : conversation.t D)
    (already : Character.t) :
  conversation.get_character (af_ref_id a) c = Some already ->
  resolve_enrichment a (Active c)
  = (Ok (af_character_name a, af_ingame_voice_model a, enrichment_of already),
     Active c, []).
Proof.
  intros Hget. unfold resolve_enrichment. mstep.
  rewrite (contains_character_Some _ _ _ Hget), Hget. done.
Qed.

Lemma resolve_enrichment_lookup (a : actor_fields) (c : conversation.t D) :
  conversation.get_character (af_ref_id a) c = None ->
  af_is_player_character a = false ->
  resolve_enrichment a (Active c)
  = (match load_external_character_info (af_base_id a) (af_character_name a)
             (af_race a) (af_gender a) (af_actor_voice_model a) with
     | Ok info =>
         Ok (if external_character_info.is_generic_npc info
             then (external_character_info.name info,
                   external_character_info.ingame_voice_model info,
                   enrichment_of_info info)
             else (af_character_name a, af_ingame_voice_model a,
                   enrichment_of_info info))
     | Raise e => Raise e
     end,
     Active c,
     [load_external_character_info_called (af_base_id a) (af_character_name a)
        (af_race a) (af_gender a) (af_actor_voice_model a)]).
Proof.
  intros Hget Hnpc. unfold resolve_enrichment. mstep.
  rewrite (contains_character_None _ _ Hget).
  rewrite Hnpc. simpl. unfold game_load_external_character_info. mstep.
  destruct (load_external_character_info _ _ _ _ _) as [info|e]; [|done].
  by destruct (external_character_info.is_generic_npc info).
Qed.

Lemma resolve_enrichment_player (a : actor_fields) (c : conversation.t D)
    (d : list (string * json)) :
  conversation.get_character (af_ref_id a) c = None ->
  af_is_player_character a = true ->
  voice_player_input = true ->
  af_custom_values a = JObj d ->
  resolve_enrichment a (Active c)
  = (Ok (af_character_name a, af_ingame_voice_model a,
         {| e_bio := "";
            e_tts_voice_model :=
              match dict_get KEY_ACTOR_PC_VOICEMODEL d with
              | Some v => py_str v
              | None => player_voice_model
              end;
            e_csv_in_game_voice_model := ""; e_advanced_voice_model := "";
            e_voice_accent := ""; e_is_generic_npc := false |}),
     Active c, []).
Proof.
  intros Hget Hpc Hvoice Hcv. unfold resolve_enrichment. mstep.
  rewrite (contains_character_None _ _ Hget).
  rewrite Hpc, Hvoice, Hcv. simpl.
  by destruct (dict_get KEY_ACTOR_PC_VOICEMODEL d) as [v|].
Qed.

Lemma resolve_enrichment_frame (a : actor_fields) (st : state) :
  exists r tr,
    resolve_enrichment a st = (r, st, tr)
    /\ Forall (fun e => is_lifecycle e = false) tr.
Proof.
  destruct st as [[c|]]; [|rewrite resolve_enrichment_idle; eauto].
  destruct (conversation.get_character (af_ref_id a) c) as [ch|] eqn:Hget.
  { rewrite (resolve_enrichment_cached _ _ _ Hget). eauto. }
  destruct (af_is_player_character a) eqn:Hpc.
  2:{ rewrite (resolve_enrichment_lookup _ _ Hget Hpc).
      do 2 eexists. split; [done|]. by repeat constructor. }
  unfold resolve_enrichment. mstep.
  rewrite (contains_character_None _ _ Hget).
  rewrite Hpc. simpl. destruct voice_player_input; [|eauto].
  destruct (py_contains (af_custom_values a) KEY_ACTOR_PC_VOICEMODEL)
    as [[|]|e]; simpl; [|eauto|eauto].
  destruct (py_getitem (af_custom_values a) KEY_ACTOR_PC_VOICEMODEL);
    simpl; eauto.
Qed.

Lemma load_character_unfold (j : json) (st : state) :
  load_character j st
  = match read_actor j with
    | Ok a =>
        match resolve_enrichment a st with
        | (Ok (character_name, ingame_voice_model, e), st', tr) =>
            (Ok (Some (character_of a character_name ingame_voice_model e)),
             st', tr)
        | (Raise CharacterDoesNotExist, st', tr) => (Ok None, st', tr ++ [restarting])
        | (Raise e, st', tr) => (Raise e, st', tr)
        end
    | Raise CharacterDoesNotExist => (Ok None, st, [restarting])
    | Raise e => (Raise e, st, [])
    end.
Proof.
  unfold load_character, try_except_CharacterDoesNotExist. mstep.
  destruct (read_actor j) as [a|e]; simpl.
  - destruct (resolve_enrichment a st) as [[[[[n v] en]|e] st'] tr]; simpl.
    + by rewrite app_nil_r.
    + by destruct e.
  - by destruct e.
Qed.

Lemma read_actor_name_and_voice (j : json) (a : actor_fields) :
  read_actor j = Ok a ->
  py_str <$> py_getitem j KEY_ACTOR_NAME = Ok (af_character_name a)
  /\ (py_str <$> py_getitem j KEY_ACTOR_VOICETYPE) ≫= voice_token
     = Ok (af_ingame_voice_model a).
Proof.
  unfold read_actor. intros Hread.
  repeat match type of Hread with
  | (?m ≫= _) = Ok _ =>
      let E := fresh "E" in
      destruct m eqn:E; [unfold mbind at 1, result_bind at 1 in Hread|done]
  end.
  injection Hread as <-. simpl. by split.
Qed.

(** C7. A non-player actor that the session does not hold yet is looked up
    once; when the lookup marks it generic, the record's name and in-game
    voice model are the lookup's; otherwise they are the request's: the
    [str] of its name, and the token cut out of its voice type. *)
Theorem generic_lookup_overrides_name_and_voice
    (j : json) (a : actor_fields) (c : conversation.t D)
    (info : external_character_info.t) :
  read_actor j = Ok a ->
  conversation.get_character (af_ref_id a) c = None ->
  af_is_player_character a = false ->
  load_external_character_info (af_base_id a) (af_character_name a)
    (af_race a) (af_gender a) (af_actor_voice_model a) = Ok info ->
  exists ch,
    load_character j (Active c)
    = (Ok (Some ch), Active c,
       [load_external_character_info_called (af_base_id a)
          (af_character_name a) (af_race a) (af_gender a)
          (af_actor_voice_model a)])
    /\ Character.name ch
       = (if external_character_info.is_generic_npc info
          then external_character_info.name info
          else af_character_name a)
    /\ Character.ingame_voice_model ch
       = (if external_character_info.is_generic_npc info
          then external_character_info.ingame_voice_model info
          else af_ingame_voice_model a)
    /\ Character.is_generic_npc ch = external_character_info.is_generic_npc info
    /\ py_str <$> py_getitem j KEY_ACTOR_NAME = Ok (af_character_name a)
    /\ (py_str <$> py_getitem j KEY_ACTOR_VOICETYPE) ≫= voice_token
       = Ok (af_ingame_voice_model a).
Proof.
  intros Hread Hget Hnpc Hinfo.
  rewrite load_character_unfold, Hread,
    (resolve_enrichment_lookup _ _ Hget Hnpc), Hinfo.
  destruct (read_actor_name_and_voice _ _ Hread) as [Hname Hvoice].
  destruct (external_character_info.is_generic_npc info) eqn:Hgen;
    eexists; (split; [reflexivity|]); simpl; by rewrite ?Hgen.
Qed.

Lemma read_actor_custom_values (j : json) (a : actor_fields) :
  read_actor j = Ok a ->
  match py_contains j KEY_ACTOR_CUSTOMVALUES with
  | Ok true =>
      exists v, py_getitem j KEY_ACTOR_CUSTOMVALUES = Ok v
                /\ af_custom_values a = (if py_bool v then v else JObj [])
  | _ => af_custom_values a = JObj []
  end.
Proof.
  unfold read_actor. intros Hread.
  repeat match type of Hread with
  | (?m ≫= _) = Ok _ =>
      let E := fresh "E" in
      destruct m eqn:E; [unfold mbind at 1, result_bind at 1 in Hread|done]
  end.
  injection Hread as <-. simpl.
  match goal with
  | E : (if ?b then _ else _) = Ok ?cv |- (if ?b then _ else ?cv = _) =>
      rename E into Ecv; destruct b; [|by injection Ecv as <-]
  end.
  destruct (py_getitem j KEY_ACTOR_CUSTOMVALUES) as [v|]; [|done].
  exists v. split; [done|]. by injection Ecv as <-.
Qed.

(** C8. The player's actor, not held by the session yet, with player voice
    input enabled: the record's synthesized-voice model is the [str] of the
    value under [KEY_ACTOR_PC_VOICEMODEL] in the actor's custom values when
    that key is there, and the configured [player_voice_model] otherwise.
    No collaborator is called. *)
Theorem player_voice_model_override_or_default
    (j : json) (a : actor_fields) (c : conversation.t D)
    (custom_values : list (string * json)) :
  read_actor j = Ok a ->
  conversation.get_character (af_ref_id a) c = None ->
  af_is_player_character a = true ->
  voice_player_input = true ->
  af_custom_values a = JObj custom_values ->
  exists ch,
    load_character j (Active c) = (Ok (Some ch), Active c, [])
    /\ Character.tts_voice_model ch
       = match dict_get KEY_ACTOR_PC_VOICEMODEL custom_values with
         | Some v => py_str v
         | None => player_voice_model
         end
    /\ Character.custom_values ch = JObj custom_values.
Proof.
  intros Hread Hget Hpc Hvoice Hcv.
  rewrite load_character_unfold, Hread,
    (resolve_enrichment_player _ _ _ Hget Hpc Hvoice Hcv).
  eexists. split; [reflexivity|]. by simpl.
Qed.

(** ** [__update_context]: what it does to the session *)

Lemma load_character_frame (j : json) (st : state) :
  exists r tr,
    load_character j st = (r, st, tr)
    /\ Forall (fun e => is_lifecycle e = false) tr.
Proof.
  rewrite load_character_unfold.
  destruct (read_actor j) as [a|e].
  - destruct (resolve_enrichment_frame a st) as (r & tr & -> & Htr).
    destruct r as [[[n v] en]|e]; [eauto|].
    destruct e; do 2 eexists; (split; [reflexivity|]); try done.
    apply Forall_app. split; [done|]. by repeat constructor.
  - destruct e; do 2 eexists; (split; [reflexivity|]); by repeat constructor.
Qed.

Lemma load_actors_frame (actors : list json) (acc : list Character.t)
    (st : state) :
  exists r tr,
    load_actors actors acc st = (r, st, tr)
    /\ Forall (fun e => is_lifecycle e = false) tr
    /\ match r with
       | Ok chs => chs = acc ++ loaded st actors /\ tr = loading_trace st actors
       | Raise _ => True
       end.
Proof.
  revert acc. induction actors as [|j actors IH]; intros acc; simpl.
  - do 2 eexists. split; [reflexivity|]. split; [done|].
    by rewrite app_nil_r.
  - mstep. unfold loaded, loading_trace. simpl.
    destruct (load_character_frame j st) as (r & tr & Hj & Htr).
    rewrite Hj. simpl. destruct r as [o|e]; [|eauto].
    destruct (IH (match o with Some ch => acc ++ [ch] | None => acc end))
      as (r' & tr' & Hrest & Htr' & Hr').
    rewrite Hrest. do 2 eexists. split; [reflexivity|].
    split; [by apply Forall_app|].
    destruct r' as [chs|]; [|done]. destruct Hr' as [-> ->].
    split; [|done]. destruct o; [|done]. by rewrite <- app_assoc.
Qed.

Lemma read_scene_frame (j : json) :
  exists r tr,
    (forall st : state, read_scene j st = (r, st, tr))
    /\ Forall (fun e => is_lifecycle e = false) tr.
Proof.
  unfold read_scene, game_get_weather_description. mstep.
  repeat match goal with
  | |- context [match ?x with Ok _ => _ | Raise _ => _ end] =>
      destruct x; simpl; eauto
  | |- context [if ?b then _ else _] => destruct b; simpl
  end;
  do 2 eexists; (split; [intros; reflexivity|]); by repeat constructor.
Qed.

Lemma update_context_active (j : json) (c : conversation.t D) :
  exists r c' tr actors,
    update_context j (Active c) = (r, Active c', tr)
    /\ Forall (fun e => is_lifecycle e = false) tr
    /\ context.world_id (conversation.context c')
       = context.world_id (conversation.context c)
    /\ context.npcs_in_conversation (conversation.context c')
       = context.store (loaded (Active c) actors)
           (context.npcs_in_conversation (conversation.context c))
    /\ conversation.has_already_ended c' = conversation.has_already_ended c
    /\ conversation.dialogue c' = conversation.dialogue c.
Proof.
  unfold update_context. mstep.
  destruct (result_bind _ _ py_iter (py_getitem j KEY_ACTORS)) as [actors|e];
    simpl.
  2:{ exists (Raise e), c, [], []. by repeat split. }
  destruct (load_actors_frame actors [] (Active c)) as (r & tr & -> & Htr & Hr).
  destruct r as [chs|e]; simpl.
  2:{ exists (Raise e), c, tr, []. by repeat split. }
  destruct Hr as [-> ->]. simpl.
  destruct (read_scene_frame j) as (rs & trs & Hscene & Htrs).
  rewrite Hscene. destruct rs as [[[[[loc time] events] w] custom]|e]; simpl.
  - do 3 eexists. exists actors. split; [reflexivity|].
    split; [by rewrite app_nil_r; apply Forall_app|]. by repeat split.
  - do 3 eexists. exists actors. split; [reflexivity|].
    split; [by apply Forall_app|]. by repeat split.
Qed.

(** ** The enrichment of a character, once stored, stays *)

Lemma enrichment_of_character_of (a : actor_fields) (n v : string)
    (e : enrichment) :
  enrichment_of (character_of a n v e) = e
  /\ Character.ref_id (character_of a n v e) = af_ref_id a.
Proof. by destruct e. Qed.

Lemma load_character_cached (j : json) (a : actor_fields)
    (c : conversation.t D) (already : Character.t) :
  read_actor j = Ok a ->
  conversation.get_character (af_ref_id a) c = Some already ->
  load_character j (Active c)
  = (Ok (Some (character_of a (af_character_name a) (af_ingame_voice_model a)
                 (enrichment_of already))),
     Active c, []).
Proof.
  intros Hread Hget.
  by rewrite load_character_unfold, Hread, (resolve_enrichment_cached _ _ _ Hget).
Qed.

Lemma loaded_elem (st : state) (actors : list json) (ch : Character.t) :
  ch ∈ loaded st actors ->
  exists j st' tr, j ∈ actors /\ load_character j st = (Ok (Some ch), st', tr).
Proof.
  unfold loaded. intros (j & Hj & Hload)%list_elem_of_omap.
  destruct (load_character j st) as [[[[ch'|]|] st'] tr] eqn:E; try done.
  injection Hload as ->. eauto.
Qed.

Lemma loaded_cached (c : conversation.t D) (actors : list json)
    (already ch : Character.t) :
  conversation.get_character (Character.ref_id ch) c = Some already ->
  ch ∈ loaded (Active c) actors ->
  enrichment_of ch = enrichment_of already.
Proof.
  intros Hget (j & st' & tr & _ & Hload)%loaded_elem.
  rewrite load_character_unfold in Hload.
  destruct (read_actor j) as [a|e]; [|by destruct e].
  destruct (resolve_enrichment a (Active c)) as [[[[[n v] en]|e] st''] tr'] eqn:E;
    [|by destruct e].
  injection Hload as <- _ _.
  destruct (enrichment_of_character_of a n v en) as [Hen Href].
  rewrite Href in Hget.
  rewrite (resolve_enrichment_cached _ _ _ Hget) in E.
  injection E as _ _ <- _ _. done.
Qed.

Lemma store_cached (chs : list Character.t) (m : gmap string Character.t)
    (r : string) (rec : Character.t) (e : enrichment) :
  m !! r = Some rec ->
  enrichment_of rec = e ->
  (forall ch, ch ∈ chs -> Character.ref_id ch = r -> enrichment_of ch = e) ->
  exists rec', context.store chs m !! r = Some rec' /\ enrichment_of rec' = e.
Proof.
  revert m rec. induction chs as [|ch chs IH]; intros m rec Hm He Hchs; simpl.
  - eauto.
  - destruct (decide (Character.ref_id ch = r)) as [Heq|Hne].
    + apply (IH _ ch).
      * rewrite <- Heq. apply lookup_insert_eq.
      * apply Hchs; [left|done].
      * intros ch' Hin. apply Hchs. by right.
    + apply (IH _ rec).
      * by rewrite lookup_insert_ne.
      * done.
      * intros ch' Hin. apply Hchs. by right.
Qed.

Lemma update_context_cached (j : json) (c : conversation.t D) (r : string)
    (rec : Character.t) :
  conversation.get_character r c = Some rec ->
  exists res c' tr rec',
    update_context j (Active c) = (res, Active c', tr)
    /\ conversation.get_character r c' = Some rec'
    /\ enrichment_of rec' = enrichment_of rec.
Proof.
  intros Hget.
  destruct (update_context_active j c)
    as (res & c' & tr & actors & Hrun & _ & _ & Hnpcs & _).
  destruct (store_cached (loaded (Active c) actors)
              (context.npcs_in_conversation (conversation.context c))
              r rec (enrichment_of rec)) as (rec' & Hrec' & Hen); [done..| |].
  { intros ch Hin Href. subst r. by eapply loaded_cached. }
  exists res, c', tr, rec'. split; [done|]. split; [|done].
  unfold conversation.get_character. by rewrite Hnpcs.
Qed.

Lemma serve_update_context_cached (requests : list json)
    (c : conversation.t D) (r : string) (rec : Character.t) :
  conversation.get_character r c = Some rec ->
  exists c' tr rec',
    serve update_context requests (Active c) = (Active c', tr)
    /\ conversation.get_character r c' = Some rec'
    /\ enrichment_of rec' = enrichment_of rec.
Proof.
  revert c rec. induction requests as [|j requests IH]; intros c rec Hget; simpl.
  - by exists c, [], rec.
  - destruct (update_context_cached j c r rec Hget)
      as (res & c1 & tr1 & rec1 & -> & Hget1 & Hen1).
    destruct (IH c1 rec1 Hget1) as (c' & tr' & rec' & -> & Hget' & Hen').
    exists c', (tr1 ++ tr'), rec'. split; [done|]. split; [done|].
    by rewrite Hen'.
Qed.

(** C1. Once the session holds a record for a reference id, then after any
    sequence of context updates it still holds a record for that id, with
    the same biography, tts/csv/advanced voice models, accent and
    generic-NPC flag; and in the state reached, [load_character] on any
    actor with that reference id returns a record with these six values
    without calling any collaborator -- the enrichment lookup is not made
    again, whatever the actor's payload carries. *)
Theorem enrichment_is_fetched_once
    (c : conversation.t D) (r : string) (rec : Character.t)
    (requests : list json) :
  conversation.get_character r c = Some rec ->
  exists c' tr rec',
    serve update_context requests (Active c) = (Active c', tr)
    /\ conversation.get_character r c' = Some rec'
    /\ enrichment_of rec' = enrichment_of rec
    /\ forall (actor_json : json) (a : actor_fields),
         read_actor actor_json = Ok a ->
         af_ref_id a = r ->
         exists ch,
           load_character actor_json (Active c') = (Ok (Some ch), Active c', [])
           /\ Character.ref_id ch = r
           /\ enrichment_of ch = enrichment_of rec.
Proof.
  intros Hget.
  destruct (serve_update_context_cached requests c r rec Hget)
    as (c' & tr & rec' & Hrun & Hget' & Hen).
  exists c', tr, rec'. repeat (split; [done|]).
  intros actor_json a Hread <-.
  rewrite (load_character_cached _ _ _ _ Hread Hget').
  eexists. split; [reflexivity|].
  destruct (enrichment_of_character_of a (af_character_name a)
              (af_ingame_voice_model a) (enrichment_of rec')) as [-> ->].
  done.
Qed.

(** ** [start_conversation] *)

Lemma start_conversation_unfold (input_json : json) (st : state) :
  let pre :=
    match talk st with
    | Some old => [talk_end_called (context.world_id (conversation.context old))]
    | None => []
    end in
  match requested_world_id input_json with
  | Raise e => start_conversation input_json st = (Raise e, Idle, pre)
  | Ok w =>
      exists r c' tr actors,
        update_context input_json (Active (conversation.new (context.new w)))
        = (r, Active c', tr)
        /\ Forall (fun e => is_lifecycle e = false) tr
        /\ context.world_id (conversation.context c') = w
        /\ context.npcs_in_conversation (conversation.context c')
           = context.store
               (loaded (Active (conversation.new (context.new w))) actors) ∅
        /\ start_conversation input_json st
           = match r with
             | Ok _ =>
                 (Ok (JObj (py_dict
                        [(KEY_REPLYTYPE,
                          JStr KEY_REPLYTTYPE_STARTCONVERSATIONCOMPLETED)])),
                  Active (conversation.start_conversation c'),
                  pre ++ conversation_created (context.new w)
                      :: tr ++ [talk_start_conversation_called])
             | Raise e =>
                 (Raise e, Active c',
                  pre ++ conversation_created (context.new w) :: tr)
             end
  end.
Proof.
  intros pre.
  destruct (requested_world_id input_json) as [w|e] eqn:Ew.
  - destruct (update_context_active input_json (conversation.new (context.new w)))
      as (r & c' & tr & actors & Hrun & Htr & Hw & Hnpcs & _).
    exists r, c', tr, actors. repeat (split; [done|]).
    unfold start_conversation, talk_end. simpl. mstep. rewrite Ew. simpl.
    subst pre. destruct st as [[old|]]; simpl; rewrite Hrun;
      destruct r as [[]|e]; simpl; by rewrite ?app_nil_r.
  - unfold start_conversation, talk_end. mstep. rewrite Ew.
    subst pre. by destruct st as [[old|]].
Qed.

Lemma requested_world_id_cases (input_json : json) (w : string) :
  requested_world_id input_json = Ok w ->
  (py_contains input_json KEY_STARTCONVERSATION_WORLDID = Ok false
   /\ w = "default")
  \/ (exists s,
        py_contains input_json KEY_STARTCONVERSATION_WORLDID = Ok true
        /\ py_getitem input_json KEY_STARTCONVERSATION_WORLDID = Ok (JStr s)
        /\ w = WORLD_ID_CLEANSE_REGEX_sub "" s).
Proof.
  unfold requested_world_id.
  destruct (py_contains input_json KEY_STARTCONVERSATION_WORLDID)
    as [[|]|e]; simpl; [|intros [= <-]; by left|done].
  destruct (py_getitem input_json KEY_STARTCONVERSATION_WORLDID)
    as [v|e]; simpl; [|done].
  destruct v; try done. intros [= <-]. right. eauto.
Qed.

Lemma py_getitem_contains (x v : json) (k : string) :
  py_getitem x k = Ok v -> py_contains x k = Ok true.
Proof.
  destruct x; try done. simpl.
  destruct (dict_get k items) as [v'|] eqn:E; [|done]. intros _.
  by rewrite bool_decide_true by eauto.
Qed.

(** C3. [start_conversation] on a manager that holds a session: the first
    call made is the prior session's [end]; what follows is what
    [start_conversation] does on a manager without a session, with the same
    result and the same final state; in it no [end] is called, every session
    object created has an empty character map, a successful call creates
    one right after the [end], and the characters of the session left are
    those loaded from this request's actors into the empty map. *)
Theorem restart_ends_prior_session_first
    (old : conversation.t D) (input_json : json) :
  let '(r, st', tr) := start_conversation input_json Idle in
  start_conversation input_json (Active old)
  = (r, st',
     talk_end_called (context.world_id (conversation.context old)) :: tr)
  /\ Forall (fun e =>
               match e with
               | talk_end_called _ => False
               | conversation_created ctx =>
                   context.npcs_in_conversation ctx = ∅
               | _ => True
               end) tr
  /\ match r with
     | Ok _ =>
         exists w tr' c' actors,
           tr = conversation_created (context.new w) :: tr'
           /\ st' = Active c'
           /\ context.npcs_in_conversation (conversation.context c')
              = context.store
                  (loaded (Active (conversation.new (context.new w))) actors) ∅
     | Raise _ => True
     end.
Proof.
  pose proof (start_conversation_unfold input_json Idle) as HIdle.
  pose proof (start_conversation_unfold input_json (Active old)) as HActive.
  simpl in HIdle, HActive.
  destruct (requested_world_id input_json) as [w|e].
  - destruct HIdle as (r & c' & tr & actors & Hrun & Htr & Hw & Hnpcs & ->).
    destruct HActive as (r2 & c2 & tr2 & actors2 & Hrun2 & _ & _ & _ & ->).
    rewrite Hrun in Hrun2. injection Hrun2 as <- <- <-.
    assert (Hquiet : Forall (fun e =>
               match e with
               | talk_end_called _ => False
               | conversation_created ctx =>
                   context.npcs_in_conversation ctx = ∅
               | _ => True
               end) tr).
    { eapply Forall_impl; [exact Htr|]. by intros []. }
    destruct r as [[]|e]; simpl.
    + split; [done|]. split.
      * constructor; [done|]. apply Forall_app. split; [done|].
        by repeat constructor.
      * by exists w, (tr ++ [talk_start_conversation_called]),
          (conversation.start_conversation c'), actors.
    + split; [done|]. split; [|done]. by constructor.
  - rewrite HIdle, HActive. by repeat split.
Qed.

(** C6. When the request carries a world id that is a string, the session
    that [start_conversation] creates and leaves in the manager has for
    world id the letters and digits of that string, in order, whatever
    happens afterwards in the call; "My World! #1" gives "MyWorld1". *)
Theorem world_id_is_sanitized (input_json : json) (s : string) (st : state) :
  py_getitem input_json KEY_STARTCONVERSATION_WORLDID = Ok (JStr s) ->
  (exists r c' tr,
     start_conversation input_json st = (r, Active c', tr)
     /\ context.world_id (conversation.context c') = keep_letters_digits s
     /\ conversation_created (context.new (keep_letters_digits s)) ∈ tr)
  /\ WORLD_ID_CLEANSE_REGEX_sub "" s = keep_letters_digits s
  /\ WORLD_ID_CLEANSE_REGEX_sub "" "My World! #1" = "MyWorld1".
Proof.
  intros Hget.
  split; [|split; [apply WORLD_ID_CLEANSE_REGEX_sub_keeps_letters_digits|done]].
  pose proof (start_conversation_unfold input_json st) as Hstart.
  simpl in Hstart.
  assert (requested_world_id input_json = Ok (keep_letters_digits s)) as Hw.
  { unfold requested_world_id.
    rewrite (py_getitem_contains _ _ _ Hget). simpl. rewrite Hget. simpl.
    by rewrite WORLD_ID_CLEANSE_REGEX_sub_keeps_letters_digits. }
  rewrite Hw in Hstart.
  destruct Hstart as (r & c' & tr & actors & _ & _ & Hwid & _ & ->).
  destruct r as [[]|e]; do 3 eexists; (split; [reflexivity|]);
    (split; [done|]); apply elem_of_app; right; left.
Qed.

(** C10. When the request has no world-id key, the session that
    [start_conversation] creates and leaves in the manager has the world id
    "default"; and whenever a world id is determined, it is either this
    default, the key being absent, or the cleansed value of the key. *)
Theorem world_id_defaults_without_key (input_json : json) (st : state) :
  py_contains input_json KEY_STARTCONVERSATION_WORLDID = Ok false ->
  (exists r c' tr,
     start_conversation input_json st = (r, Active c', tr)
     /\ context.world_id (conversation.context c') = "default"
     /\ conversation_created (context.new "default") ∈ tr)
  /\ requested_world_id input_json = Ok "default"
  /\ forall (j : json) (w : string),
       requested_world_id j = Ok w ->
       (py_contains j KEY_STARTCONVERSATION_WORLDID = Ok false /\ w = "default")
       \/ (exists s,
             py_contains j KEY_STARTCONVERSATION_WORLDID = Ok true
             /\ py_getitem j KEY_STARTCONVERSATION_WORLDID = Ok (JStr s)
             /\ w = WORLD_ID_CLEANSE_REGEX_sub "" s).
Proof.
  intros Hno.
  assert (requested_world_id input_json = Ok "default") as Hw.
  { unfold requested_world_id. by rewrite Hno. }
  split; [|split; [done|apply requested_world_id_cases]].
  pose proof (start_conversation_unfold input_json st) as Hstart.
  simpl in Hstart. rewrite Hw in Hstart.
  destruct Hstart as (r & c' & tr & actors & _ & _ & Hwid & _ & ->).
  destruct r as [[]|e]; do 3 eexists; (split; [reflexivity|]);
    (split; [done|]); apply elem_of_app; right; left.
Qed.

(** ** A batch with actors that cannot be identified *)

Lemma store_snoc (chs : list Character.t) (ch : Character.t)
    (m : gmap string Character.t) :
  context.store (chs ++ [ch]) m
  = <[Character.ref_id ch := ch]> (context.store chs m).
Proof. unfold context.store. by rewrite fold_left_app. Qed.

Lemma store_lookup_elem (chs : list Character.t) (ch : Character.t)
    (m : gmap string Character.t) :
  ch ∈ chs ->
  exists ch',
    ch' ∈ chs /\ Character.ref_id ch' = Character.ref_id ch
    /\ context.store chs m !! Character.ref_id ch = Some ch'.
Proof.
  induction chs as [|last chs IH] using rev_ind; [by intros ?%elem_of_nil|].
  rewrite store_snoc. intros Hin.
  destruct (decide (Character.ref_id last = Character.ref_id ch)) as [Heq|Hne].
  - exists last. split; [apply elem_of_app; right; left|]. split; [done|].
    rewrite <- Heq. apply lookup_insert_eq.
  - apply elem_of_app in Hin as [Hin|Hin%list_elem_of_singleton];
      [|by subst].
    destruct (IH Hin) as (ch' & Hin' & Href & Hlook).
    exists ch'. split; [apply elem_of_app; by left|]. split; [done|].
    by rewrite lookup_insert_ne.
Qed.

Lemma store_lookup_inv (chs : list Character.t) (ch : Character.t)
    (m : gmap string Character.t) (k : string) :
  context.store chs m !! k = Some ch -> ch ∈ chs \/ m !! k = Some ch.
Proof.
  induction chs as [|last chs IH] using rev_ind; [by right|].
  rewrite store_snoc.
  destruct (decide (Character.ref_id last = k)) as [<-|Hne].
  - rewrite lookup_insert_eq. intros [= <-]. left. apply elem_of_app.
    right. left.
  - rewrite lookup_insert_ne by done. intros [Hin|Hm]%IH; [|by right].
    left. apply elem_of_app. by left.
Qed.

Lemma load_character_unidentified (j : json) (st : state) :
  read_actor j = Raise CharacterDoesNotExist ->
  load_character j st = (Ok None, st, [restarting]).
Proof. intros Hread. by rewrite load_character_unfold, Hread. Qed.

Lemma load_actors_ok (actors : list json) (acc : list Character.t)
    (st : state) :
  Forall (fun a => exists o tr, load_character a st = (Ok o, st, tr)) actors ->
  load_actors actors acc st
  = (Ok (acc ++ loaded st actors), st, loading_trace st actors).
Proof.
  intros Hall. revert acc.
  induction Hall as [|j actors (o & tr & Hj) _ IH]; intros acc; simpl.
  - by rewrite app_nil_r.
  - mstep. unfold loaded, loading_trace. simpl. rewrite Hj. simpl.
    rewrite IH. destruct o; [|done]. by rewrite <- app_assoc.
Qed.

(** C5. A batch in which every actor either cannot be identified
    ([CharacterDoesNotExist] is raised while its ids are read) or yields a
    record, in a request whose scene reads well: the update returns
    normally; each unidentified actor yields [None] (and the log record
    "Restarting..."); the session's map is the former one with the records
    of the others stored under their reference ids, so that each of them is
    held (the last one of a reference id, should several share it) and
    nothing else is new. *)
Theorem unidentified_actors_are_skipped
    (j : json) (c : conversation.t D) (actors : list json)
    (scene : json * json * json * string * json) (scene_trace : list event) :
  py_getitem j KEY_ACTORS ≫= py_iter = Ok actors ->
  Forall (fun a =>
            read_actor a = Raise CharacterDoesNotExist
            \/ exists ch tr,
                 load_character a (Active c) = (Ok (Some ch), Active c, tr))
         actors ->
  (forall st : state, read_scene j st = (Ok scene, st, scene_trace)) ->
  exists c',
    update_context j (Active c)
    = (Ok tt, Active c', loading_trace (Active c) actors ++ scene_trace)
    /\ (forall a, a ∈ actors ->
          read_actor a = Raise CharacterDoesNotExist ->
          load_character a (Active c) = (Ok None, Active c, [restarting]))
    /\ context.npcs_in_conversation (conversation.context c')
       = context.store (loaded (Active c) actors)
           (context.npcs_in_conversation (conversation.context c))
    /\ (forall ch, ch ∈ loaded (Active c) actors ->
          exists ch',
            ch' ∈ loaded (Active c) actors
            /\ Character.ref_id ch' = Character.ref_id ch
            /\ conversation.get_character (Character.ref_id ch) c' = Some ch')
    /\ (forall k ch,
          conversation.get_character k c' = Some ch ->
          ch ∈ loaded (Active c) actors
          \/ conversation.get_character k c = Some ch).
Proof.
  intros Hactors Hall Hscene.
  assert (Forall (fun a => exists o tr,
            load_character a (Active c) = (Ok o, Active c, tr)) actors) as Hok.
  { eapply Forall_impl; [exact Hall|]. intros a [Hread|(ch & tr & Hload)].
    - rewrite (load_character_unidentified _ _ Hread). eauto.
    - eauto. }
  destruct scene as [[[[loc time] events] w] custom].
  exists (conversation.update_context loc time events w custom
            (conversation.add_or_update_character (loaded (Active c) actors) c)).
  split.
  { unfold update_context. mstep.
    change (result_bind _ _ py_iter (py_getitem j KEY_ACTORS))
      with (py_getitem j KEY_ACTORS ≫= py_iter).
    rewrite Hactors. simpl. rewrite (load_actors_ok _ _ _ Hok). simpl.
    rewrite Hscene. simpl. by rewrite !app_nil_r. }
  split; [intros a _ Hread; by apply load_character_unidentified|].
  split; [done|]. split.
  - intros ch Hin. unfold conversation.get_character. simpl.
    by apply store_lookup_elem.
  - intros k ch. unfold conversation.get_character. simpl.
    apply store_lookup_inv.
Qed.

(** ** [continue_conversation] on a manager that holds a session *)

Lemma continue_conversation_active (input_json : json) (c : conversation.t D) :
  exists r c' tr,
    continue_conversation input_json (Active c) = (r, Active c', tr)
    /\ (r = Ok no_session_reply -> talk_continue_conversation_called ∈ tr).
Proof.
  unfold continue_conversation, talk_end, game_prepare_sentence_for_game.
  mstep.
  repeat match goal with
  | |- context [py_contains ?x ?k] =>
      destruct (py_contains x k) as [[|]|?]; simpl
  | |- context [py_getitem ?x ?k] => destruct (py_getitem x k); simpl
  | |- context [conversation.continue_conversation ?c0] =>
      destruct (conversation.continue_conversation c0) as [[? [?|]] ?]; simpl
  | |- context [carries_error ?s] => destruct (carries_error s); simpl
  | |- context [prepare_sentence_for_game ?s ?ctx] =>
      destruct (prepare_sentence_for_game s ctx); simpl
  end;
  do 3 eexists; (split; [reflexivity|]); intros Hr; try discriminate;
  rewrite !elem_of_cons; tauto.
Qed.

(** C2, as the code has it. When the generation step returns a sentence that
    carries an error message, [continue_conversation] calls the session's
    [end] and returns the error reply with that message -- but [self.__talk]
    is not reset (compare lines 44-45 and 88-89): the manager still holds
    the ended session. A later [continue_conversation] does not take the
    no-session branch: it leaves a manager that holds a session, and can
    only return the no-session reply after calling the session's
    [continue_conversation]; on a manager without a session the same request
    calls nothing and leaves no session. *)
Theorem generation_error_leaves_session_in_place
    (input_json later_json : json) (c c1 : conversation.t D)
    (replyType msg : string) (s : sentence.t) :
  py_contains input_json KEY_REQUEST_EXTRA_ACTIONS = Ok false ->
  conversation.continue_conversation c = (replyType, Some s, c1) ->
  carries_error s = Some msg ->
  continue_conversation input_json (Active c)
  = (Ok (error_message msg), Active (conversation.end_ c1),
     [talk_continue_conversation_called;
      talk_end_called (context.world_id (conversation.context c1))])
  /\ conversation.has_already_ended (conversation.end_ c1) = true
  /\ (exists r c' tr,
        continue_conversation later_json (Active (conversation.end_ c1))
        = (r, Active c', tr)
        /\ (r = Ok no_session_reply -> talk_continue_conversation_called ∈ tr))
  /\ continue_conversation later_json Idle = (Ok no_session_reply, Idle, []).
Proof.
  intros Hextra Hturn Herr. split; [|split; [done|split; [|done]]].
  - unfold continue_conversation, talk_end. mstep.
    rewrite Hextra. simpl. rewrite Hturn. simpl. by rewrite Herr.
  - apply continue_conversation_active.
Qed.


(** ** More on [load_character] *)

Lemma read_actor_volatile (j : json) (a : actor_fields) :
  read_actor j = Ok a ->
  py_bool <$> py_getitem j KEY_ACTOR_ISINCOMBAT = Ok (af_is_in_combat a)
  /\ py_bool <$> py_getitem j KEY_ACTOR_ISENEMY = Ok (af_is_enemy a)
  /\ py_getitem j KEY_ACTOR_RELATIONSHIPRANK ≫= py_int
     = Ok (af_relationship_rank a)
  /\ py_bool <$> py_getitem j KEY_ACTOR_ISPLAYER
     = Ok (af_is_player_character a).
Proof.
  unfold read_actor. intros Hread.
  repeat match type of Hread with
  | (?m ≫= _) = Ok _ =>
      let E := fresh "E" in
      destruct m eqn:E; [unfold mbind at 1, result_bind at 1 in Hread|done]
  end.
  injection Hread as <-. simpl. by repeat split.
Qed.

(** X1. Whatever the session holds, the record that [load_character] returns
    has the identifiers, gender, race, player flag, combat and enemy flags,
    relationship rank, equipment and custom values read from the request:
    none of them is taken from the session or from the lookup. *)
Theorem volatile_fields_come_from_the_request
    (j : json) (st st' : state) (ch : Character.t) (tr : list event) :
  load_character j st = (Ok (Some ch), st', tr) ->
  exists a,
    read_actor j = Ok a
    /\ Character.base_id ch = af_base_id a
    /\ Character.ref_id ch = af_ref_id a
    /\ Character.gender ch = af_gender a
    /\ Character.race ch = af_race a
    /\ Character.is_player_character ch = af_is_player_character a
    /\ Character.is_in_combat ch = af_is_in_combat a
    /\ Character.is_enemy ch = af_is_enemy a
    /\ Character.relationship_rank ch = af_relationship_rank a
    /\ Character.equipment ch = af_equipment a
    /\ Character.custom_values ch = af_custom_values a
    /\ py_bool <$> py_getitem j KEY_ACTOR_ISINCOMBAT
       = Ok (Character.is_in_combat ch)
    /\ py_bool <$> py_getitem j KEY_ACTOR_ISENEMY
       = Ok (Character.is_enemy ch)
    /\ py_getitem j KEY_ACTOR_RELATIONSHIPRANK ≫= py_int
       = Ok (Character.relationship_rank ch).
Proof.
  rewrite load_character_unfold. intros Hload.
  destruct (read_actor j) as [a|e] eqn:Hread; [|by destruct e].
  destruct (resolve_enrichment a st) as [[[[[n v] en]|e] st''] tr'];
    [|by destruct e].
  injection Hload as <- _ _. exists a.
  destruct (read_actor_volatile _ _ Hread) as (Hc & He & Hr & _).
  by repeat split.
Qed.

(** X2. The generic override of name and voice model is applied at the first
    sighting only: once the record of a generic actor is stored, loading the
    same actor again returns the name and the voice token of the request,
    no longer the lookup's, while the record stays marked generic. *)
Theorem generic_name_is_not_kept_on_resighting
    (j : json) (a : actor_fields) (c : conversation.t D)
    (info : external_character_info.t) (first : Character.t)
    (tr : list event) :
  read_actor j = Ok a ->
  conversation.get_character (af_ref_id a) c = None ->
  af_is_player_character a = false ->
  load_external_character_info (af_base_id a) (af_character_name a)
    (af_race a) (af_gender a) (af_actor_voice_model a) = Ok info ->
  external_character_info.is_generic_npc info = true ->
  load_character j (Active c) = (Ok (Some first), Active c, tr) ->
  let c' := conversation.add_or_update_character [first] c in
  Character.name first = external_character_info.name info
  /\ Character.ingame_voice_model first
     = external_character_info.ingame_voice_model info
  /\ exists again,
       load_character j (Active c') = (Ok (Some again), Active c', [])
       /\ Character.name again = af_character_name a
       /\ Character.ingame_voice_model again = af_ingame_voice_model a
       /\ Character.is_generic_npc again = true
       /\ enrichment_of again = enrichment_of first.
Proof.
  intros Hread Hget Hnpc Hinfo Hgen Hload c'.
  rewrite load_character_unfold, Hread,
    (resolve_enrichment_lookup _ _ Hget Hnpc), Hinfo, Hgen in Hload.
  injection Hload as <- _. split; [done|]. split; [done|].
  assert (conversation.get_character (af_ref_id a) c'
          = Some (character_of a (external_character_info.name info)
                    (external_character_info.ingame_voice_model info)
                    (enrichment_of_info info))) as Hget'.
  { unfold c', conversation.get_character. simpl. apply lookup_insert_eq. }
  rewrite (load_character_cached _ _ _ _ Hread Hget').
  eexists. split; [reflexivity|]. simpl. by rewrite Hgen.
Qed.

(** X3. [load_character] leaves the manager's state as it is, and calls the
    lookup at most once: exactly when the request reads well, a session is
    held, it does not hold the actor's reference id, and the actor is not
    the player. The only other thing it does is to log "Restarting..." when
    it catches [CharacterDoesNotExist]. *)
Theorem lookup_is_called_for_unknown_npcs_only (j : json) (st : state) :
  exists r tr,
    load_character j st = (r, st, tr)
    /\ match read_actor j with
       | Ok a =>
           match talk st with
           | Some c =>
               if conversation.contains_character (af_ref_id a) c
                  || af_is_player_character a
               then tr = []
               else
                 let call :=
                   load_external_character_info_called (af_base_id a)
                     (af_character_name a) (af_race a) (af_gender a)
                     (af_actor_voice_model a) in
                 tr = [call] \/ (tr = [call; restarting] /\ r = Ok None)
           | None => tr = []
           end
       | Raise CharacterDoesNotExist => tr = [restarting] /\ r = Ok None
       | Raise _ => tr = []
       end.
Proof.
  rewrite load_character_unfold.
  destruct (read_actor j) as [a|e]; [|destruct e; by eauto].
  destruct st as [[c|]]; [|rewrite resolve_enrichment_idle; simpl; by eauto].
  simpl.
  destruct (conversation.get_character (af_ref_id a) c) as [ch|] eqn:Hget.
  { rewrite (resolve_enrichment_cached _ _ _ Hget),
      (contains_character_Some _ _ _ Hget). simpl. eauto. }
  rewrite (contains_character_None _ _ Hget). simpl.
  destruct (af_is_player_character a) eqn:Hpc.
  - unfold resolve_enrichment. mstep.
    rewrite (contains_character_None _ _ Hget), Hpc. simpl.
    destruct voice_player_input; [|by eauto].
    destruct (af_custom_values a) as [| | |s|l|d]; simpl; try by eauto.
    + destruct (str_contains KEY_ACTOR_PC_VOICEMODEL s); simpl; by eauto.
    + destruct (existsb _ l); simpl; by eauto.
    + destruct (dict_get KEY_ACTOR_PC_VOICEMODEL d) as [v|]; simpl; by eauto.
  - rewrite (resolve_enrichment_lookup _ _ Hget Hpc).
    destruct (load_external_character_info _ _ _ _ _) as [info|e].
    + destruct (external_character_info.is_generic_npc info);
        do 2 eexists; (split; [reflexivity|]); by left.
    + destruct e; do 2 eexists; (split; [reflexivity|]); simpl;
        first [by left | by right].
Qed.

(** X4. A lookup that fails: [CharacterDoesNotExist] raised by
    [load_external_character_info] is caught like the one raised while the
    ids are read -- the actor yields [None] after the call and the log
    record; any other exception of the lookup escapes [load_character]. *)
Theorem failed_lookup_skips_the_actor_or_escapes
    (j : json) (a : actor_fields) (c : conversation.t D) (e : exn) :
  read_actor j = Ok a ->
  conversation.get_character (af_ref_id a) c = None ->
  af_is_player_character a = false ->
  load_external_character_info (af_base_id a) (af_character_name a)
    (af_race a) (af_gender a) (af_actor_voice_model a) = Raise e ->
  let call :=
    load_external_character_info_called (af_base_id a) (af_character_name a)
      (af_race a) (af_gender a) (af_actor_voice_model a) in
  load_character j (Active c)
  = match e with
    | CharacterDoesNotExist => (Ok None, Active c, [call; restarting])
    | _ => (Raise e, Active c, [call])
    end.
Proof.
  intros Hread Hget Hnpc Hinfo call.
  rewrite load_character_unfold, Hread,
    (resolve_enrichment_lookup _ _ Hget Hnpc), Hinfo.
  by destruct e.
Qed.

(** X5. An entry of the actor list that is not a JSON object, or an object
    without base id, is not skipped: [load_character] raises [TypeError],
    respectively [KeyError], which its [except] clause does not catch. *)
Theorem malformed_actor_is_not_skipped (j : json) (st : state) :
  match j with
  | JObj d => dict_get KEY_ACTOR_BASEID d = None
  | _ => True
  end ->
  load_character j st
  = (Raise (match j with
            | JObj _ => KeyError KEY_ACTOR_BASEID
            | _ => TypeError
            end), st, []).
Proof.
  intros Hj. rewrite load_character_unfold.
  destruct j as [| | | | |d]; try done.
  unfold read_actor. simpl. by rewrite Hj.
Qed.

(** ** More on [__update_context] *)

Lemma load_actors_raise (pre post : list json) (a : json)
    (acc : list Character.t) (st : state) (e : exn) (tr : list event) :
  Forall (fun x => exists o t, load_character x st = (Ok o, st, t)) pre ->
  load_character a st = (Raise e, st, tr) ->
  load_actors (pre ++ a :: post) acc st
  = (Raise e, st, loading_trace st pre ++ tr).
Proof.
  intros Hpre Ha. revert acc.
  induction Hpre as [|x pre (o & t & Hx) _ IH]; intros acc; simpl.
  - mstep. by rewrite Ha.
  - mstep. unfold loading_trace. simpl. rewrite Hx. simpl.
    rewrite IH. by rewrite app_assoc.
Qed.

(** X6. When [load_character] raises for one actor of the batch, the update
    stops there and raises the same exception: the actors before it have
    been loaded (their lookups made), but nothing is stored -- the session
    is exactly what it was, characters and scene. *)
Theorem failing_actor_aborts_the_update
    (j : json) (c : conversation.t D) (pre post : list json) (a : json)
    (e : exn) (tr : list event) :
  py_getitem j KEY_ACTORS ≫= py_iter = Ok (pre ++ a :: post) ->
  Forall (fun x => exists o t,
            load_character x (Active c) = (Ok o, Active c, t)) pre ->
  load_character a (Active c) = (Raise e, Active c, tr) ->
  update_context j (Active c)
  = (Raise e, Active c, loading_trace (Active c) pre ++ tr).
Proof.
  intros Hactors Hpre Ha. unfold update_context. mstep.
  change (result_bind _ _ py_iter (py_getitem j KEY_ACTORS))
    with (py_getitem j KEY_ACTORS ≫= py_iter).
  rewrite Hactors. simpl.
  by rewrite (load_actors_raise _ _ _ _ _ _ _ Hpre Ha).
Qed.

(** X7. When the actors load but the scene cannot be read, the update raises
    after the characters have been stored: the session holds the new
    records with the scene of the previous update. *)
Theorem scene_error_leaves_the_characters_stored
    (j : json) (c : conversation.t D) (actors : list json) (e : exn)
    (scene_trace : list event) :
  py_getitem j KEY_ACTORS ≫= py_iter = Ok actors ->
  Forall (fun x => exists o t,
            load_character x (Active c) = (Ok o, Active c, t)) actors ->
  (forall st : state, read_scene j st = (Raise e, st, scene_trace)) ->
  let c' :=
    conversation.add_or_update_character (loaded (Active c) actors) c in
  update_context j (Active c)
  = (Raise e, Active c', loading_trace (Active c) actors ++ scene_trace)
  /\ context.location (conversation.context c')
     = context.location (conversation.context c)
  /\ context.ingame_time (conversation.context c')
     = context.ingame_time (conversation.context c)
  /\ context.ingame_events (conversation.context c')
     = context.ingame_events (conversation.context c)
  /\ context.weather (conversation.context c')
     = context.weather (conversation.context c)
  /\ context.custom_context_values (conversation.context c')
     = context.custom_context_values (conversation.context c).
Proof.
  intros Hactors Hok Hscene c'. split; [|done].
  unfold update_context. mstep.
  change (result_bind _ _ py_iter (py_getitem j KEY_ACTORS))
    with (py_getitem j KEY_ACTORS ≫= py_iter).
  rewrite Hactors. simpl. rewrite (load_actors_ok _ _ _ Hok). simpl.
  by rewrite Hscene.
Qed.

(** X8. What [__update_context] reads of the scene: the location is [None] when
    its key is absent, the custom values are an empty dict when theirs is,
    the weather is the empty string when its key is absent -- and only when
    the key is there is [get_weather_description] called, once; a failure
    of that call is the failure of the read. Time and events are taken as
    they are. *)
Theorem scene_defaults_and_weather_call
    (j : json) (st : state) (d : list (string * json)) (time events : json) :
  py_getitem j KEY_CONTEXT = Ok (JObj d) ->
  dict_get KEY_CONTEXT_TIME d = Some time ->
  dict_get KEY_CONTEXT_INGAMEEVENTS d = Some events ->
  let location := default JNull (dict_get KEY_CONTEXT_LOCATION d) in
  let custom := default (JObj []) (dict_get KEY_CONTEXT_CUSTOMVALUES d) in
  read_scene j st
  = match dict_get KEY_CONTEXT_WEATHER d with
    | None => (Ok (location, time, events, "", custom), st, [])
    | Some w =>
        (match get_weather_description w with
         | Ok description => Ok (location, time, events, description, custom)
         | Raise e => Raise e
         end, st, [get_weather_description_called w])
    end.
Proof.
  intros Hctx Htime Hevents location custom.
  unfold read_scene, game_get_weather_description. mstep.
  rewrite Hctx. simpl. rewrite Htime, Hevents. simpl.
  subst location custom.
  destruct (dict_get KEY_CONTEXT_WEATHER d) as [w|]; simpl.
  - destruct (get_weather_description w) as [description|e]; simpl; [|done].
    by destruct (dict_get KEY_CONTEXT_CUSTOMVALUES d).
  - by destruct (dict_get KEY_CONTEXT_CUSTOMVALUES d).
Qed.

(** ** More on [start_conversation] *)

Lemma keep_letters_digits_all (s : string) :
  all_chars in_A_Za_z0_9 (keep_letters_digits s) = true.
Proof.
  induction s as [|ch s IH]; simpl; [done|].
  destruct (in_A_Za_z0_9 ch) eqn:E; simpl; [by rewrite E|done].
Qed.

Lemma keep_letters_digits_id (s : string) :
  all_chars in_A_Za_z0_9 s = true -> keep_letters_digits s = s.
Proof.
  induction s as [|ch s IH]; simpl; [done|].
  intros [-> Hs]%andb_true_iff. by rewrite IH.
Qed.

Lemma keep_letters_digits_length (s : string) :
  String.length (keep_letters_digits s) <= String.length s.
Proof.
  induction s as [|ch s IH]; simpl; [done|].
  destruct (in_A_Za_z0_9 ch); simpl; lia.
Qed.

Lemma keep_letters_digits_none (s : string) :
  all_chars (fun ch => negb (in_A_Za_z0_9 ch)) s = true ->
  keep_letters_digits s = "".
Proof.
  induction s as [|ch s IH]; simpl; [done|].
  intros [Hch Hs]%andb_true_iff.
  destruct (in_A_Za_z0_9 ch); [done|]. by apply IH.
Qed.

(** X9. The cleansed world id is made of letters and digits only; cleansing is
    idempotent, never lengthens the id, and leaves an id unchanged that has
    only letters and digits. *)
Theorem cleansed_world_id_is_alphanumeric (s : string) :
  let w := WORLD_ID_CLEANSE_REGEX_sub "" s in
  all_chars in_A_Za_z0_9 w = true
  /\ WORLD_ID_CLEANSE_REGEX_sub "" w = w
  /\ String.length w <= String.length s
  /\ (all_chars in_A_Za_z0_9 s = true -> w = s).
Proof.
  intros w. subst w.
  rewrite !WORLD_ID_CLEANSE_REGEX_sub_keeps_letters_digits.
  split; [apply keep_letters_digits_all|].
  split; [apply keep_letters_digits_id, keep_letters_digits_all|].
  split; [apply keep_letters_digits_length|apply keep_letters_digits_id].
Qed.

(** X10. A world id that is given but has no letter and no digit is cleansed to
    the empty string: the session is created with the empty world id, not
    with "default", which is used only when the key is absent. *)
Theorem world_id_without_letters_or_digits_is_empty
    (input_json : json) (s : string) (st : state) :
  py_getitem input_json KEY_STARTCONVERSATION_WORLDID = Ok (JStr s) ->
  all_chars (fun ch => negb (in_A_Za_z0_9 ch)) s = true ->
  requested_world_id input_json = Ok ""
  /\ exists r c' tr,
       start_conversation input_json st = (r, Active c', tr)
       /\ context.world_id (conversation.context c') = ""
       /\ conversation_created (context.new "") ∈ tr.
Proof.
  intros Hget Hs.
  assert (requested_world_id input_json = Ok "") as Hw.
  { unfold requested_world_id.
    rewrite (py_getitem_contains _ _ _ Hget). simpl. rewrite Hget. simpl.
    by rewrite WORLD_ID_CLEANSE_REGEX_sub_keeps_letters_digits,
      keep_letters_digits_none. }
  split; [done|].
  pose proof (start_conversation_unfold input_json st) as Hstart.
  simpl in Hstart. rewrite Hw in Hstart.
  destruct Hstart as (r & c' & tr & actors & _ & _ & Hwid & _ & ->).
  destruct r as [[]|e]; do 3 eexists; (split; [reflexivity|]);
    (split; [done|]); apply elem_of_app; right; left.
Qed.

(** X11. A world id that is not a string makes [start_conversation] raise
    [TypeError] after the prior session, if any, has been ended and
    dropped: the manager is left without a session. *)
Theorem world_id_that_is_not_a_string_leaves_no_session
    (input_json world_id : json) (st : state) :
  py_getitem input_json KEY_STARTCONVERSATION_WORLDID = Ok world_id ->
  match world_id with JStr _ => False | _ => True end ->
  start_conversation input_json st
  = (Raise TypeError, Idle,
     match talk st with
     | Some old => [talk_end_called (context.world_id (conversation.context old))]
     | None => []
     end).
Proof.
  intros Hget Hnot.
  pose proof (start_conversation_unfold input_json st) as Hstart.
  simpl in Hstart.
  assert (requested_world_id input_json = Raise TypeError) as Hw.
  { unfold requested_world_id.
    rewrite (py_getitem_contains _ _ _ Hget). simpl. rewrite Hget. simpl.
    by destruct world_id. }
  by rewrite Hw in Hstart.
Qed.

(** X12. A request whose actor list cannot be read (the key is missing, or its
    value cannot be iterated) makes [start_conversation] raise after the
    new session has been assigned: the manager holds a session that has the
    requested world id, no character, and on which [start_conversation] was
    never called. *)
Theorem unreadable_actor_list_leaves_an_unstarted_session
    (input_json : json) (w : string) (e : exn) (st : state) :
  requested_world_id input_json = Ok w ->
  py_getitem input_json KEY_ACTORS ≫= py_iter = Raise e ->
  start_conversation input_json st
  = (Raise e, Active (conversation.new (context.new w)),
     match talk st with
     | Some old => [talk_end_called (context.world_id (conversation.context old))]
     | None => []
     end ++ [conversation_created (context.new w)]).
Proof.
  intros Hw Hactors.
  unfold start_conversation, talk_end, update_context. mstep.
  rewrite Hw. simpl.
  change (result_bind _ _ py_iter (py_getitem input_json KEY_ACTORS))
    with (py_getitem input_json KEY_ACTORS ≫= py_iter).
  destruct st as [[old|]]; simpl; by rewrite Hactors.
Qed.

(** ** More on [player_input] *)

Lemma player_input_without_text_changes_nothing
    (input_json : json) (c : conversation.t D) (e : exn) :
  py_getitem input_json KEY_REQUESTTYPE_PLAYERINPUT = Raise e ->
  player_input input_json (Active c) = (Raise e, Active c, []).
Proof. intros Hget. unfold player_input. mstep. by rewrite Hget. Qed.

(** X13. [player_input] reads the player's text first -- a request without it
    raises before anything is done --, then updates the context, then hands
    the text to the session: the text reaches the session exactly when the
    update succeeded, in the updated session; when the update raises, the
    same exception is raised, the session is as the update left it, and the
    player's text has not been processed. *)
Theorem player_text_is_processed_after_a_successful_update
    (input_json player_text : json) (c : conversation.t D) :
  py_getitem input_json KEY_REQUESTTYPE_PLAYERINPUT = Ok player_text ->
  (exists r c' tr,
     update_context input_json (Active c) = (r, Active c', tr)
     /\ player_input input_json (Active c)
        = match r with
          | Ok _ =>
              (Ok (JObj (py_dict [(KEY_REPLYTYPE, JStr KEY_REPLYTYPE_NPCTALK)])),
               Active (conversation.process_player_input player_text c'),
               tr ++ [talk_process_player_input_called player_text])
          | Raise e => (Raise e, Active c', tr)
          end)
  /\ forall (other_json : json) (e : exn),
       py_getitem other_json KEY_REQUESTTYPE_PLAYERINPUT = Raise e ->
       player_input other_json (Active c) = (Raise e, Active c, []).
Proof.
  intros Hget. split.
  - destruct (update_context_active input_json c)
      as (r & c' & tr & actors & Hrun & _).
    exists r, c', tr. split; [done|].
    unfold player_input. mstep. rewrite Hget. simpl. rewrite Hrun.
    destruct r as [[]|e]; simpl; by rewrite ?app_nil_r.
  - intros other_json e. apply player_input_without_text_changes_nothing.
Qed.

Lemma player_input_cached (j : json) (c : conversation.t D) (r : string)
    (rec : Character.t) :
  conversation.get_character r c = Some rec ->
  exists res c' tr rec',
    player_input j (Active c) = (res, Active c', tr)
    /\ conversation.get_character r c' = Some rec'
    /\ enrichment_of rec' = enrichment_of rec.
Proof.
  intros Hget.
  destruct (update_context_cached j c r rec Hget)
    as (res & c' & tr & rec' & Hrun & Hget' & Hen).
  unfold player_input. mstep.
  destruct (py_getitem j KEY_REQUESTTYPE_PLAYERINPUT) as [text|e]; simpl.
  - rewrite Hrun.
    destruct res as [[]|e]; simpl; do 3 eexists; exists rec';
      (split; [reflexivity|]); by split.
  - by exists (Raise e), c, [], rec.
Qed.

(** X14. The enrichment of a character the session holds survives any sequence
    of [player_input] requests, well formed or not: its record is still
    held afterwards, with the same biography, tts/csv/advanced voice
    models, accent and generic flag. *)
Theorem enrichment_survives_player_inputs
    (requests : list json) (c : conversation.t D) (r : string)
    (rec : Character.t) :
  conversation.get_character r c = Some rec ->
  exists c' tr rec',
    serve player_input requests (Active c) = (Active c', tr)
    /\ conversation.get_character r c' = Some rec'
    /\ enrichment_of rec' = enrichment_of rec.
Proof.
  revert c rec. induction requests as [|j requests IH]; intros c rec Hget; simpl.
  - by exists c, [], rec.
  - destruct (player_input_cached j c r rec Hget)
      as (res & c1 & tr1 & rec1 & -> & Hget1 & Hen1).
    destruct (IH c1 rec1 Hget1) as (c' & tr' & rec' & -> & Hget' & Hen').
    exists c', (tr1 ++ tr'), rec'. split; [done|]. split; [done|].
    by rewrite Hen'.
Qed.

(** ** More on [continue_conversation] *)

Lemma continue_conversation_plain (input_json : json) (c : conversation.t D) :
  py_contains input_json KEY_REQUEST_EXTRA_ACTIONS = Ok false ->
  continue_conversation input_json (Active c)
  = let '(replyType, sentence_to_play, c1) :=
      conversation.continue_conversation c in
    match sentence_to_play with
    | None =>
        (Ok (JObj (py_dict [(KEY_REPLYTYPE, JStr replyType)])), Active c1,
         [talk_continue_conversation_called])
    | Some s =>
        match carries_error s with
        | Some msg =>
            (Ok (error_message msg), Active (conversation.end_ c1),
             [talk_continue_conversation_called;
              talk_end_called (context.world_id (conversation.context c1))])
        | None =>
            (match prepare_sentence_for_game s (conversation.context c1) with
             | Ok s' =>
                 Ok (JObj (dict_set KEY_REPLYTYPE_NPCTALK (sentence_to_json s')
                             (py_dict [(KEY_REPLYTYPE, JStr replyType)])))
             | Raise e => Raise e
             end,
             Active c1,
             [talk_continue_conversation_called;
              prepare_sentence_for_game_called s])
        end
    end.
Proof.
  intros Hextra.
  unfold continue_conversation, talk_end, game_prepare_sentence_for_game.
  mstep. rewrite Hextra. simpl.
  destruct (conversation.continue_conversation c) as [[replyType [s|]] c1];
    simpl; [|done].
  destruct (carries_error s); simpl; [done|].
  by destruct (prepare_sentence_for_game s (conversation.context c1)).
Qed.

(** X15. The outcomes of a turn, for a request without extra actions. The
    session's [continue_conversation] is called once. Without a sentence,
    the reply carries the reply type only. With a sentence that has no
    error message (or an empty one), the game prepares it, once, and the
    reply carries it; the session is not ended. With an error message, the
    session is ended and the reply is the error. A failure of the
    preparation escapes after the session has advanced. *)
Theorem turn_outcomes (input_json : json) (c : conversation.t D) :
  py_contains input_json KEY_REQUEST_EXTRA_ACTIONS = Ok false ->
  continue_conversation input_json (Active c)
  = let '(replyType, sentence_to_play, c1) :=
      conversation.continue_conversation c in
    match sentence_to_play with
    | None =>
        (Ok (JObj (py_dict [(KEY_REPLYTYPE, JStr replyType)])), Active c1,
         [talk_continue_conversation_called])
    | Some s =>
        match sentence.error_message s with
        | None | Some "" =>
            (match prepare_sentence_for_game s (conversation.context c1) with
             | Ok s' =>
                 Ok (JObj (dict_set KEY_REPLYTYPE_NPCTALK (sentence_to_json s')
                             (py_dict [(KEY_REPLYTYPE, JStr replyType)])))
             | Raise e => Raise e
             end,
             Active c1,
             [talk_continue_conversation_called;
              prepare_sentence_for_game_called s])
        | Some msg =>
            (Ok (error_message msg), Active (conversation.end_ c1),
             [talk_continue_conversation_called;
              talk_end_called (context.world_id (conversation.context c1))])
        end
    end.
Proof.
  intros Hextra. rewrite (continue_conversation_plain _ _ Hextra).
  destruct (conversation.continue_conversation c) as [[replyType [s|]] c1];
    [|done].
  unfold carries_error.
  destruct (sentence.error_message s) as [[|ch msg]|]; done.
Qed.

(** X16. Extra actions: the session's [reload_conversation] is called exactly
    when the extra actions contain the reload tag, once and before the
    turn; the rest of the call is the turn of a request without extra
    actions, taken on the reloaded session. *)
Theorem reload_happens_before_the_turn_when_tagged
    (input_json plain_json extra_actions : json) (reload : bool)
    (c : conversation.t D) :
  py_getitem input_json KEY_REQUEST_EXTRA_ACTIONS = Ok extra_actions ->
  py_contains extra_actions ACTION_RELOADCONVERSATION = Ok reload ->
  py_contains plain_json KEY_REQUEST_EXTRA_ACTIONS = Ok false ->
  continue_conversation input_json (Active c)
  = let '(r, st', tr) :=
      continue_conversation plain_json
        (Active (if reload then conversation.reload_conversation c else c)) in
    (r, st', (if reload then [talk_reload_conversation_called] else []) ++ tr).
Proof.
  intros Hextra Hreload Hplain.
  rewrite (continue_conversation_plain plain_json _ Hplain).
  unfold continue_conversation, talk_end, game_prepare_sentence_for_game.
  mstep. rewrite (py_getitem_contains _ _ _ Hextra). simpl.
  rewrite Hextra. simpl. rewrite Hreload. simpl.
  destruct reload; simpl.
  - destruct (conversation.continue_conversation
                (conversation.reload_conversation c))
      as [[replyType [s|]] c1]; simpl; [|done].
    destruct (carries_error s); simpl; [done|].
    by destruct (prepare_sentence_for_game s (conversation.context c1)).
  - destruct (conversation.continue_conversation c)
      as [[replyType [s|]] c1]; simpl; [|done].
    destruct (carries_error s); simpl; [done|].
    by destruct (prepare_sentence_for_game s (conversation.context c1)).
Qed.

(** X17. After a generation error the manager still holds the ended session, so
    the [end_conversation] that follows calls the session's [end] a second
    time before dropping it. *)
Theorem end_is_called_twice_after_a_generation_error
    (input_json end_json : json) (c c1 : conversation.t D)
    (replyType msg : string) (s : sentence.t) :
  py_contains input_json KEY_REQUEST_EXTRA_ACTIONS = Ok false ->
  conversation.continue_conversation c = (replyType, Some s, c1) ->
  carries_error s = Some msg ->
  let '(r1, st1, tr1) := continue_conversation input_json (Active c) in
  let '(r2, st2, tr2) := end_conversation end_json st1 in
  let ended := talk_end_called (context.world_id (conversation.context c1)) in
  r1 = Ok (error_message msg)
  /\ tr1 = [talk_continue_conversation_called; ended]
  /\ tr2 = ended :: end_conversation_log
  /\ st2 = Idle.
Proof.
  intros Hextra Hturn Herr.
  rewrite (continue_conversation_plain _ _ Hextra), Hturn, Herr.
  by rewrite end_conversation_active.
Qed.

(** ** The voice token (line 158) *)

Lemma py_split_cons (sep : ascii) (s : string) :
  exists w ws, py_split sep s = w :: ws.
Proof.
  destruct s as [|ch s]; simpl; [by eauto|].
  destruct (Ascii.eqb ch sep); [by eauto|].
  destruct (py_split sep s); eauto.
Qed.

Lemma append_cons (ch : ascii) (s t : string) :
  String ch s +:+ t = String ch (s +:+ t).
Proof. reflexivity. Qed.

Lemma append_empty_r (s : string) : s +:+ "" = s.
Proof.
  induction s as [|ch s IH]; [done|]. by rewrite append_cons, IH.
Qed.

Lemma append_assoc (s t u : string) : (s +:+ t) +:+ u = s +:+ (t +:+ u).
Proof.
  induction s as [|ch s IH]; [done|]. by rewrite !append_cons, IH.
Qed.

Lemma py_join_cons (sep : ascii) (w : string) (ws : list string) :
  py_join sep (w :: ws)
  = w +:+ match ws with [] => "" | _ => String sep (py_join sep ws) end.
Proof. destruct ws; simpl; [|done]. by rewrite append_empty_r. Qed.

Lemma py_join_split (sep : ascii) (s : string) :
  py_join sep (py_split sep s) = s.
Proof.
  induction s as [|ch s IH]; [done|]. simpl.
  destruct (py_split_cons sep s) as (w & ws & E). rewrite E in *.
  destruct (Ascii.eqb_spec ch sep) as [->|Hne].
  - rewrite py_join_cons, IH. reflexivity.
  - rewrite py_join_cons in *. by rewrite append_cons, IH.
Qed.

Lemma py_split_no_sep (sep : ascii) (s : string) :
  Forall (fun w => has_char sep w = false) (py_split sep s).
Proof.
  induction s as [|ch s IH]; simpl; [by repeat constructor|].
  destruct (Ascii.eqb ch sep) eqn:E; [by constructor|].
  destruct (py_split sep s) as [|w ws]; [by repeat constructor; simpl; rewrite E|].
  inversion IH as [|? ? Hw Hws]; subst. constructor; [|done].
  simpl. by rewrite E, Hw.
Qed.

Lemma py_split_single (sep : ascii) (s : string) :
  has_char sep s = false <-> py_split sep s !! 1 = None.
Proof.
  induction s as [|ch s IH]; simpl; [done|].
  destruct (Ascii.eqb ch sep) eqn:E; simpl.
  - destruct (py_split_cons sep s) as (w & ws & ->). done.
  - destruct (py_split_cons sep s) as (w & ws & Hs). rewrite Hs in *.
    simpl in *. done.
Qed.

Lemma has_char_app (c : ascii) (s t : string) :
  has_char c (s +:+ t) = has_char c s || has_char c t.
Proof.
  induction s as [|ch s IH]; [done|].
  rewrite append_cons. simpl. by rewrite IH, orb_assoc.
Qed.

(** X18. The voice token cannot be cut out exactly when the voice type has no
    '<': [load_character] then fails with [IndexError]. *)
Theorem voice_token_needs_a_bracket (actor_voice_model : string) :
  (has_char "<" actor_voice_model = false
   <-> voice_token actor_voice_model = Raise IndexError)
  /\ (has_char "<" actor_voice_model = true
      <-> exists token, voice_token actor_voice_model = Ok token).
Proof.
  unfold voice_token, py_index.
  pose proof (py_split_single "<" actor_voice_model) as Hsingle.
  destruct (py_split "<" actor_voice_model !! 1) as [part|] eqn:E; simpl.
  - destruct (py_split_cons " " part) as (w & ws & ->). simpl.
    assert (has_char "<" actor_voice_model = true) as Htrue.
    { destruct (has_char "<" actor_voice_model); [done|].
      destruct Hsingle as [Hs _]. discriminate (Hs eq_refl). }
    rewrite Htrue. split; [split; done|]. split; [by eauto|done].
  - rewrite (proj2 Hsingle eq_refl).
    split; [done|]. split; [done|]. by intros [? ?].
Qed.

(** X19. The voice token is the text between the first '<' of the voice type and
    the next space or '<', or the end: it has no space and no '<'. *)
Theorem voice_token_is_the_word_after_the_first_bracket
    (actor_voice_model token : string) :
  voice_token actor_voice_model = Ok token ->
  has_char " " token = false
  /\ has_char "<" token = false
  /\ exists before rest,
       actor_voice_model = before +:+ String "<" (token +:+ rest)
       /\ has_char "<" before = false
       /\ stops_at " " "<" rest = true.
Proof.
  unfold voice_token, py_index.
  pose proof (py_join_split "<" actor_voice_model) as Hjoin.
  pose proof (py_split_no_sep "<" actor_voice_model) as Hno.
  destruct (py_split "<" actor_voice_model) as [|before [|part more]];
    simpl; try done.
  pose proof (py_join_split " " part) as Hjoin2.
  pose proof (py_split_no_sep " " part) as Hno2.
  destruct (py_split " " part) as [|w ws]; simpl; [done|].
  intros [= ->].
  pose proof (Forall_inv Hno) as Hbefore.
  pose proof (Forall_inv (Forall_inv_tail Hno)) as Hpart.
  pose proof (Forall_inv Hno2) as Htoken.
  simpl in Hbefore, Hpart, Htoken.
  rewrite py_join_cons in Hjoin2.
  assert (has_char "<" token = false) as Htoken'.
  { rewrite <- Hjoin2, has_char_app in Hpart.
    by apply orb_false_iff in Hpart as [? _]. }
  split; [done|]. split; [done|].
  exists before,
    (match ws with [] => "" | _ => String " " (py_join " " ws) end
     +:+ match more with [] => "" | _ => String "<" (py_join "<" more) end).
  split; [|split; [done|]].
  - rewrite <- Hjoin at 1. rewrite py_join_cons. f_equal. f_equal.
    by rewrite py_join_cons, <- Hjoin2, append_assoc.
  - by destruct ws, more.
Qed.

(** ** Replies and equipment *)

Lemma dict_get_set_eq {V} (k : string) (v : V) (d : list (string * V)) :
  dict_get k (dict_set k v d) = Some v.
Proof.
  induction d as [|[k' v'] d IH]; simpl.
  - by rewrite String.eqb_refl.
  - destruct (String.eqb k k') eqn:E; simpl; [by rewrite String.eqb_refl|].
    by rewrite E.
Qed.

Lemma dict_get_app_fresh {V} (k k0 : string) (v : V) (d : list (string * V)) :
  k <> k0 -> dict_get k (d ++ [(k0, v)]) = dict_get k d.
Proof.
  intros Hne. induction d as [|[k' v'] d IH]; simpl.
  - by rewrite (proj2 (String.eqb_neq k k0) Hne).
  - by destruct (String.eqb k k').
Qed.

Lemma dict_set_fresh {V} (k : string) (v : V) (d : list (string * V)) :
  dict_get k d = None -> dict_set k v d = d ++ [(k, v)].
Proof.
  induction d as [|[k' v'] d IH]; simpl; [done|].
  destruct (String.eqb k k'); [done|]. intros Hd. by rewrite IH.
Qed.

(** X20. The error reply always carries the message under "mantella_message",
    so that two error replies are equal only for equal messages; and it has
    the reply type "error" beside it as soon as the reply-type key is not
    "mantella_message" itself. *)
Theorem error_reply_carries_its_message (message : string) :
  py_getitem (error_message message) "mantella_message" = Ok (JStr message)
  /\ (forall other, error_message message = error_message other ->
                    message = other)
  /\ (KEY_REPLYTYPE <> "mantella_message" ->
      error_message message
      = JObj [(KEY_REPLYTYPE, JStr "error");
              ("mantella_message", JStr message)]).
Proof.
  assert (forall m, py_getitem (error_message m) "mantella_message"
                    = Ok (JStr m)) as Hread.
  { intros m. unfold error_message, py_dict.
    cbn [fold_left fst snd py_getitem]. by rewrite dict_get_set_eq. }
  split; [apply Hread|]. split.
  - intros other Heq. pose proof (Hread message) as Hm.
    rewrite Heq, Hread in Hm. by injection Hm as ->.
  - intros Hne. unfold error_message, py_dict.
    cbn [fold_left fst snd dict_set].
    destruct (String.eqb_spec "mantella_message" KEY_REPLYTYPE) as [Heq|_];
      [by rewrite Heq in Hne|done].
Qed.

Lemma equipment_fold (items : list (string * json))
    (acc : list (string * EquipmentItem)) :
  NoDup (map fst items) ->
  (forall k, k ∈ map fst items -> dict_get k acc = None) ->
  fold_left (fun result si => dict_set (fst si) {| item_name := snd si |} result)
    items acc
  = acc ++ map (fun si => (fst si, {| item_name := snd si |})) items.
Proof.
  revert acc. induction items as [|[k v] items IH]; intros acc Hnd Hfresh; simpl.
  - by rewrite app_nil_r.
  - apply NoDup_cons in Hnd as [Hk Hnd].
    rewrite dict_set_fresh by (apply Hfresh; left).
    rewrite IH; [by rewrite <- app_assoc|done|].
    intros k' Hk'. rewrite dict_get_app_fresh.
    + apply Hfresh. by right.
    + intros ->. done.
Qed.

(** X21. [__convert_to_equipment_item_dictionary]: a dict of slots gives the same
    slots, in the same order, each item wrapped; [None], an empty dict and
    every other false value give the empty dict; any other value that is
    not a dict raises [AttributeError]. *)
Theorem equipment_slots_are_wrapped_one_by_one (input_dict : json) :
  match input_dict with
  | JObj items => NoDup (map fst items)
  | _ => True
  end ->
  convert_to_equipment_item_dictionary input_dict
  = match input_dict with
    | JObj items =>
        Ok (map (fun si => (fst si, {| item_name := snd si |})) items)
    | _ => if py_bool input_dict then Raise AttributeError else Ok []
    end.
Proof.
  intros Hnd. unfold convert_to_equipment_item_dictionary.
  destruct input_dict as [| | | | |items]; try done.
  destruct items as [|si items]; [done|].
  change (py_bool (JObj (si :: items))) with true. cbv iota.
  by rewrite equipment_fold.
Qed.

End Properties.

(** * Examples *)

#[local] Existing Instances example_builtins example_constants example_game
  example_config example_utils example_engine.

(** The session of the examples holds Lydia; two updates later, one of them
    describing her as somebody else, her record still has the enrichment of
    the first resolution, and loading her calls nothing. *)
Lemma enrichment_is_fetched_once_witness :
  conversation.get_character "0001A6A4" example_session = Some example_lydia
  /\ exists c' tr rec',
       serve update_context
         [example_request [example_actor 80801 108196 "Lydia" false []];
          example_request [example_actor 5 108196 "Guard" false [];
                           example_actor 7 20 "Player" true []]]
         ({| talk := Some example_session |} : example_state)
       = ({| talk := Some c' |}, tr)
       /\ conversation.get_character "0001A6A4" c' = Some rec'
       /\ enrichment_of rec' = enrichment_of example_lydia
       /\ forall (actor_json : json) (a : actor_fields),
            read_actor actor_json = Ok a ->
            af_ref_id a = "0001A6A4" ->
            exists ch,
              load_character actor_json {| talk := Some c' |}
              = (Ok (Some ch), {| talk := Some c' |}, [])
              /\ Character.ref_id ch = "0001A6A4"
              /\ enrichment_of ch = enrichment_of example_lydia.
Proof.
  split; [reflexivity|].
  apply (enrichment_is_fetched_once example_session "0001A6A4" example_lydia).
  reflexivity.
Defined.

(** A guard, generic in the lookup table of the examples, gets the name and
    the voice model of its template. *)
Lemma generic_lookup_overrides_name_and_voice_witness :
  exists a info,
    read_actor (example_actor 1 2 "Guard" false []) = Ok a
    /\ conversation.get_character (af_ref_id a) example_session = None
    /\ af_is_player_character a = false
    /\ load_external_character_info (af_base_id a) (af_character_name a)
         (af_race a) (af_gender a) (af_actor_voice_model a) = Ok info
    /\ exists ch,
         load_character (example_actor 1 2 "Guard" false [])
           ({| talk := Some example_session |} : example_state)
         = (Ok (Some ch), {| talk := Some example_session |},
            [load_external_character_info_called "00000001" "Guard" "Nord" 0
               "[VoiceType <MaleNord (00013AD2)>]"])
         /\ Character.name ch = "Whiterun Guard"
         /\ Character.ingame_voice_model ch = "MaleGuard"
         /\ Character.is_generic_npc ch = true
         /\ py_str <$> py_getitem (example_actor 1 2 "Guard" false []) KEY_ACTOR_NAME
            = Ok "Guard"
         /\ (py_str <$> py_getitem (example_actor 1 2 "Guard" false [])
                          KEY_ACTOR_VOICETYPE) ≫= voice_token
            = Ok "MaleNord".
Proof.
  do 2 eexists.
  split; [reflexivity|]. split; [reflexivity|]. split; [reflexivity|].
  split; [reflexivity|].
  exact (generic_lookup_overrides_name_and_voice
           (example_actor 1 2 "Guard" false []) _ example_session _
           eq_refl eq_refl eq_refl eq_refl).
Defined.

(** The player's actor with an override in its custom values. *)
Lemma player_voice_model_override_or_default_witness :
  exists a,
    read_actor (example_actor 7 20 "Player" true
                  [("pc_voice_model", JStr "Custom")]) = Ok a
    /\ conversation.get_character (af_ref_id a) example_session = None
    /\ af_is_player_character a = true
    /\ voice_player_input = true
    /\ af_custom_values a = JObj [("pc_voice_model", JStr "Custom")]
    /\ exists ch,
         load_character (example_actor 7 20 "Player" true
                           [("pc_voice_model", JStr "Custom")])
           ({| talk := Some example_session |} : example_state)
         = (Ok (Some ch), {| talk := Some example_session |}, [])
         /\ Character.tts_voice_model ch = "Custom"
         /\ Character.custom_values ch = JObj [("pc_voice_model", JStr "Custom")].
Proof.
  eexists.
  split; [reflexivity|]. split; [reflexivity|]. split; [reflexivity|].
  split; [reflexivity|]. split; [reflexivity|].
  exact (player_voice_model_override_or_default
           (example_actor 7 20 "Player" true [("pc_voice_model", JStr "Custom")])
           _ example_session _ eq_refl eq_refl eq_refl eq_refl eq_refl).
Defined.

(** A batch of two: an actor whose base id is not a number, and a guard. *)
Lemma unidentified_actors_are_skipped_witness :
  let request :=
    example_request [example_unparsable_actor;
                     example_actor 1 2 "Guard" false []] in
  let actors :=
    [example_unparsable_actor; example_actor 1 2 "Guard" false []] in
  let st : example_state := {| talk := Some example_session |} in
  (py_getitem request KEY_ACTORS ≫= py_iter = Ok actors
   /\ Forall (fun a =>
                read_actor a = Raise CharacterDoesNotExist
                \/ exists ch tr, load_character a st = (Ok (Some ch), st, tr))
             actors
   /\ forall st' : example_state,
        read_scene request st'
        = (Ok (JStr "Whiterun", JInt 14, JList [], "", JObj []), st', []))
  /\ exists c',
       update_context request st
       = (Ok tt, {| talk := Some c' |}, loading_trace st actors ++ [])
       /\ load_character example_unparsable_actor st
          = (Ok None, st, [restarting])
       /\ (exists guard,
             loaded st actors = [guard]
             /\ conversation.get_character "00000002" c' = Some guard)
       /\ conversation.get_character "0000004D" c' = None.
Proof.
  intros request actors st.
  assert (py_getitem request KEY_ACTORS ≫= py_iter = Ok actors) as Hactors
    by reflexivity.
  assert (Forall (fun a =>
                read_actor a = Raise CharacterDoesNotExist
                \/ exists ch tr, load_character a st = (Ok (Some ch), st, tr))
             actors) as Hall.
  { constructor; [by left|]. constructor; [|constructor].
    right. do 2 eexists. reflexivity. }
  assert (forall st' : example_state,
        read_scene request st'
        = (Ok (JStr "Whiterun", JInt 14, JList [], "", JObj []), st', []))
    as Hscene by reflexivity.
  split; [done|].
  destruct (unidentified_actors_are_skipped request example_session actors
              _ _ Hactors Hall Hscene)
    as (c' & Hrun & Hskip & Hnpcs & _ & _).
  exists c'. split; [exact Hrun|]. split.
  { apply Hskip; [left|reflexivity]. }
  unfold conversation.get_character. rewrite Hnpcs. split.
  - eexists. split; reflexivity.
  - reflexivity.
Defined.

(** The scene id of the specification's example. *)
Lemma world_id_is_sanitized_witness :
  let request :=
    JObj [("scene_id", JStr "My World! #1"); ("actors", JList []);
          ("context", example_scene)] in
  py_getitem request KEY_STARTCONVERSATION_WORLDID = Ok (JStr "My World! #1")
  /\ (exists r c' tr,
        start_conversation request ({| talk := None |} : example_state)
        = (r, {| talk := Some c' |}, tr)
        /\ context.world_id (conversation.context c') = "MyWorld1"
        /\ conversation_created (context.new "MyWorld1") ∈ tr)
  /\ WORLD_ID_CLEANSE_REGEX_sub "" "My World! #1" = "MyWorld1"
  /\ WORLD_ID_CLEANSE_REGEX_sub "" "My World! #1" = "MyWorld1".
Proof.
  intros request. split; [reflexivity|].
  exact (world_id_is_sanitized request "My World! #1" {| talk := None |}
           eq_refl).
Defined.

(** A request without scene id, on a manager that holds a session. *)
Lemma world_id_defaults_without_key_witness :
  py_contains (example_request []) KEY_STARTCONVERSATION_WORLDID = Ok false
  /\ exists r c' tr,
       start_conversation (example_request [])
         ({| talk := Some example_session |} : example_state)
       = (r, {| talk := Some c' |}, tr)
       /\ context.world_id (conversation.context c') = "default"
       /\ conversation_created (context.new "default") ∈ tr.
Proof.
  split; [reflexivity|].
  exact (proj1 (world_id_defaults_without_key (example_request [])
                  {| talk := Some example_session |} eq_refl)).
Defined.

(** The backend of the examples reports an oversized input: the reply is the
    error, the session has ended, and the manager still holds it. *)
Lemma generation_error_leaves_session_in_place_witness :
  let st : example_state := {| talk := Some example_session |} in
  let ended := conversation.end_ example_session in
  (py_contains (JObj []) KEY_REQUEST_EXTRA_ACTIONS = Ok false
   /\ conversation.continue_conversation example_session
      = ("npc_talk",
         Some (sentence.make example_speaker "" "" (JInt 0) []
                 (Some "The text is too long")), example_session)
   /\ carries_error (sentence.make example_speaker "" "" (JInt 0) []
                       (Some "The text is too long"))
      = Some "The text is too long")
  /\ continue_conversation (JObj []) st
     = (Ok (error_message "The text is too long"), {| talk := Some ended |},
        [talk_continue_conversation_called; talk_end_called "Whiterun"])
  /\ exists r c' tr,
       continue_conversation (JObj []) {| talk := Some ended |}
       = (r, {| talk := Some c' |}, tr)
       /\ (r = Ok no_session_reply -> talk_continue_conversation_called ∈ tr).
Proof.
  intros st ended.
  assert (conversation.continue_conversation example_session
      = ("npc_talk",
         Some (sentence.make example_speaker "" "" (JInt 0) []
                 (Some "The text is too long")), example_session)) as Hturn
    by reflexivity.
  split; [by repeat split|].
  destruct (generation_error_leaves_session_in_place (JObj []) (JObj [])
              example_session example_session "npc_talk"
              "The text is too long" _ eq_refl Hturn eq_refl)
    as (Hrun & _ & Hlater & _).
  split; [exact Hrun|exact Hlater].
Defined.

(** The same run, evaluated: after the generation error a second
    [continue_conversation] is answered from the ended session, not with
    the no-session reply. *)
Example second_continue_after_generation_error :
  let st : example_state := {| talk := Some example_session |} in
  let '(r1, st1, _) := continue_conversation (JObj []) st in
  let '(r2, st2, tr2) := continue_conversation (JObj []) st1 in
  r1 = Ok (error_message "The text is too long")
  /\ st1 = {| talk := Some (conversation.end_ example_session) |}
  /\ r2 = Ok (error_message "The text is too long")
  /\ r2 <> Ok no_session_reply
  /\ tr2 = [talk_continue_conversation_called; talk_end_called "Whiterun"]
  /\ continue_conversation (JObj []) ({| talk := None |} : example_state)
     = (Ok no_session_reply, {| talk := None |}, []).
Proof. simpl. repeat split. discriminate. Qed.

(** A second start: the session of the examples is ended first, and the
    session left holds the guard of the request only. *)
Example restart_drops_the_characters_of_the_prior_session :
  let request := example_request [example_actor 1 2 "Guard" false []] in
  let '(r, st', tr) :=
    start_conversation request
      ({| talk := Some example_session |} : example_state) in
  r = Ok (JObj [("reply_type", JStr "start_completed")])
  /\ tr = [talk_end_called "Whiterun";
           conversation_created (context.new "default");
           load_external_character_info_called "00000001" "Guard" "Nord" 0
             "[VoiceType <MaleNord (00013AD2)>]";
           talk_start_conversation_called]
  /\ match talk st' with
     | Some c' =>
         conversation.get_character "0001A6A4" c' = None
         /\ is_Some (conversation.get_character "00000002" c')
     | None => False
     end.
Proof. vm_compute. repeat split. by eexists. Qed.

(** * Examples, continued *)

Lemma volatile_fields_come_from_the_request_witness :
  let j :=
    JObj [("base_id", JInt 80801); ("ref_id", JInt 108196);
          ("name", JStr "Lydia"); ("gender", JInt 1); ("race", JStr "Nord");
          ("voice_type", JStr "<FemaleEvenToned>");
          ("is_in_combat", JBool true); ("is_enemy", JInt 0);
          ("relationship_rank", JStr "-2"); ("is_player", JBool false)] in
  let st : example_state := {| talk := Some example_session |} in
  exists ch,
    load_character j st = (Ok (Some ch), st, [])
    /\ Character.is_in_combat ch = true
    /\ Character.is_enemy ch = false
    /\ Character.relationship_rank ch = (-2)%Z
    /\ Character.bio ch = "Housecarl of Whiterun".
Proof.
  intros j st. eexists. split; [reflexivity|].
  match goal with
  | |- Character.is_in_combat ?ch = _ /\ _ =>
      assert (load_character j st = (Ok (Some ch), st, [])) as Hload
        by reflexivity
  end.
  destruct (volatile_fields_come_from_the_request j st st _ [] Hload)
    as (a & Hread & _ & _ & _ & _ & _ & Hc & He & Hr & _).
  injection Hread as <-. by repeat split.
Defined.

Lemma generic_name_is_not_kept_on_resighting_witness :
  let j := example_actor 1 2 "Guard" false [] in
  let st : example_state := {| talk := Some example_session |} in
  exists first again c',
    load_character j st
    = (Ok (Some first), st,
       [load_external_character_info_called "00000001" "Guard" "Nord" 0
          "[VoiceType <MaleNord (00013AD2)>]"])
    /\ c' = conversation.add_or_update_character [first] example_session
    /\ Character.name first = "Whiterun Guard"
    /\ load_character j {| talk := Some c' |}
       = (Ok (Some again), {| talk := Some c' |}, [])
    /\ Character.name again = "Guard"
    /\ Character.ingame_voice_model again = "MaleNord"
    /\ Character.is_generic_npc again = true.
Proof.
  intros j st.
  assert (read_actor j
          = Ok ltac:(let t := eval vm_compute in (read_actor j) in
                     match t with Ok ?a => exact a end)) as Hread
    by (vm_compute; reflexivity).
  assert (exists first tr,
            load_character j st = (Ok (Some first), st, tr)) as Hfirst
    by (do 2 eexists; vm_compute; reflexivity).
  destruct Hfirst as (first & tr & Hfirst).
  destruct (generic_name_is_not_kept_on_resighting j _ example_session
              (external_character_info.make "Biography of Guard"
                 "tts-[VoiceType <MaleNord (00013AD2)>]"
                 "csv-[VoiceType <MaleNord (00013AD2)>]"
                 "adv-[VoiceType <MaleNord (00013AD2)>]" "en" true
                 "Whiterun Guard" "MaleGuard")
              first tr Hread
              ltac:(vm_compute; reflexivity) ltac:(vm_compute; reflexivity)
              ltac:(vm_compute; reflexivity) ltac:(vm_compute; reflexivity)
              Hfirst)
    as (Hname & _ & again & Hagain & Hn & Hv & Hg & _).
  exists first, again,
    (conversation.add_or_update_character [first] example_session).
  assert (tr = [load_external_character_info_called "00000001" "Guard" "Nord" 0
                  "[VoiceType <MaleNord (00013AD2)>]"]) as ->.
  { revert Hfirst. vm_compute. by intros [= _ <-]. }
  split; [exact Hfirst|]. split; [reflexivity|].
  split; [exact Hname|]. split; [exact Hagain|]. by repeat split.
Defined.

Lemma failed_lookup_skips_the_actor_or_escapes_witness :
  let j := example_actor 1 2 "Guard" false [] in
  let st : example_state := {| talk := Some example_session |} in
  @load_external_character_info example_game_without_table
    "00000001" "Guard" "Nord" 0 "[VoiceType <MaleNord (00013AD2)>]"
  = Raise CharacterDoesNotExist
  /\ @load_character _ example_builtins example_constants
       example_game_without_table example_config example_utils j st
     = (Ok None, st,
        [load_external_character_info_called "00000001" "Guard" "Nord" 0
           "[VoiceType <MaleNord (00013AD2)>]"; restarting]).
Proof.
  intros j st. split; [reflexivity|].
  assert (read_actor j
          = Ok ltac:(let t := eval vm_compute in (read_actor j) in
                     match t with Ok ?a => exact a end)) as Hread
    by (vm_compute; reflexivity).
  exact (@failed_lookup_skips_the_actor_or_escapes _ example_builtins
           example_constants example_game_without_table example_config
           example_utils j _ example_session CharacterDoesNotExist
           Hread ltac:(vm_compute; reflexivity)
           ltac:(vm_compute; reflexivity) ltac:(vm_compute; reflexivity)).
Defined.

Lemma malformed_actor_is_not_skipped_witness :
  let st : example_state := {| talk := Some example_session |} in
  dict_get KEY_ACTOR_BASEID [("name", JStr "Nobody")] = None
  /\ load_character (JObj [("name", JStr "Nobody")]) st
     = (Raise (KeyError "base_id"), st, [])
  /\ load_character (JStr "Lydia") st = (Raise TypeError, st, []).
Proof.
  intros st.
  assert (dict_get KEY_ACTOR_BASEID [("name", JStr "Nobody")] = None) as Hno
    by reflexivity.
  split; [exact Hno|]. split.
  - exact (malformed_actor_is_not_skipped (JObj [("name", JStr "Nobody")]) st
             Hno).
  - exact (malformed_actor_is_not_skipped (JStr "Lydia") st I).
Defined.

Lemma failing_actor_aborts_the_update_witness :
  let guard := example_actor 1 2 "Guard" false [] in
  let request := example_request [guard; JStr "Lydia"] in
  let st : example_state := {| talk := Some example_session |} in
  (py_getitem request KEY_ACTORS ≫= py_iter = Ok ([guard] ++ JStr "Lydia" :: [])
   /\ load_character (JStr "Lydia") st = (Raise TypeError, st, []))
  /\ update_context request st
     = (Raise TypeError, st,
        [load_external_character_info_called "00000001" "Guard" "Nord" 0
           "[VoiceType <MaleNord (00013AD2)>]"]).
Proof.
  intros guard request st.
  assert (py_getitem request KEY_ACTORS ≫= py_iter
          = Ok ([guard] ++ JStr "Lydia" :: [])) as Hactors by reflexivity.
  assert (load_character (JStr "Lydia") st = (Raise TypeError, st, []))
    as Hbad by reflexivity.
  split; [by split|].
  assert (Forall (fun x => exists o t, load_character x st = (Ok o, st, t))
            [guard]) as Hpre.
  { constructor; [|constructor]. do 2 eexists. reflexivity. }
  exact (failing_actor_aborts_the_update request example_session [guard] []
           (JStr "Lydia") TypeError [] Hactors Hpre Hbad).
Defined.

Lemma scene_error_leaves_the_characters_stored_witness :
  let guard := example_actor 1 2 "Guard" false [] in
  let request :=
    JObj [("actors", JList [guard]); ("context", example_scene_without_time)] in
  let st : example_state := {| talk := Some example_session |} in
  (py_getitem request KEY_ACTORS ≫= py_iter = Ok [guard]
   /\ forall st' : example_state,
        read_scene request st' = (Raise (KeyError "time"), st', []))
  /\ exists c',
       update_context request st
       = (Raise (KeyError "time"), {| talk := Some c' |},
          [load_external_character_info_called "00000001" "Guard" "Nord" 0
             "[VoiceType <MaleNord (00013AD2)>]"])
       /\ is_Some (conversation.get_character "00000002" c')
       /\ context.location (conversation.context c') = JNull.
Proof.
  intros guard request st.
  assert (py_getitem request KEY_ACTORS ≫= py_iter = Ok [guard]) as Hactors
    by reflexivity.
  assert (forall st' : example_state,
            read_scene request st' = (Raise (KeyError "time"), st', []))
    as Hscene by reflexivity.
  split; [by split|].
  assert (Forall (fun x => exists o t, load_character x st = (Ok o, st, t))
            [guard]) as Hok.
  { constructor; [|constructor]. do 2 eexists. reflexivity. }
  destruct (scene_error_leaves_the_characters_stored request example_session
              [guard] (KeyError "time") [] Hactors Hok Hscene)
    as (Hrun & Hloc & _).
  eexists. split; [exact Hrun|]. split; [by eexists|exact Hloc].
Defined.

Lemma scene_defaults_and_weather_call_witness :
  let request := JObj [("context", JObj example_scene_with_weather)] in
  let st : example_state := {| talk := None |} in
  (py_getitem request KEY_CONTEXT = Ok (JObj example_scene_with_weather)
   /\ dict_get KEY_CONTEXT_TIME example_scene_with_weather = Some (JInt 9)
   /\ dict_get KEY_CONTEXT_INGAMEEVENTS example_scene_with_weather
      = Some (JList [JStr "A dragon roars."]))
  /\ read_scene request st
     = (Ok (JNull, JInt 9, JList [JStr "A dragon roars."],
            "The sky is clear.", JObj []),
        st, [get_weather_description_called (JInt 3)]).
Proof.
  intros request st.
  assert (py_getitem request KEY_CONTEXT = Ok (JObj example_scene_with_weather))
    as Hctx by reflexivity.
  assert (dict_get KEY_CONTEXT_TIME example_scene_with_weather = Some (JInt 9))
    as Htime by reflexivity.
  assert (dict_get KEY_CONTEXT_INGAMEEVENTS example_scene_with_weather
          = Some (JList [JStr "A dragon roars."])) as Hevents by reflexivity.
  split; [by repeat split|].
  exact (scene_defaults_and_weather_call request st
           example_scene_with_weather (JInt 9)
           (JList [JStr "A dragon roars."]) Hctx Htime Hevents).
Defined.

Lemma world_id_without_letters_or_digits_is_empty_witness :
  let request := JObj [("scene_id", JStr "#!? -"); ("actors", JList []);
                       ("context", example_scene)] in
  let st : example_state := {| talk := None |} in
  (py_getitem request KEY_STARTCONVERSATION_WORLDID = Ok (JStr "#!? -")
   /\ all_chars (fun ch => negb (in_A_Za_z0_9 ch)) "#!? -" = true)
  /\ requested_world_id request = Ok ""
  /\ exists r c' tr,
       start_conversation request st = (r, {| talk := Some c' |}, tr)
       /\ context.world_id (conversation.context c') = ""
       /\ conversation_created (context.new "") ∈ tr.
Proof.
  intros request st.
  assert (py_getitem request KEY_STARTCONVERSATION_WORLDID
          = Ok (JStr "#!? -")) as Hget by reflexivity.
  assert (all_chars (fun ch => negb (in_A_Za_z0_9 ch)) "#!? -" = true)
    as Hnone by reflexivity.
  split; [by split|].
  exact (world_id_without_letters_or_digits_is_empty request "#!? -" st
           Hget Hnone).
Defined.

Lemma world_id_that_is_not_a_string_leaves_no_session_witness :
  let request := JObj [("scene_id", JInt 7); ("actors", JList []);
                       ("context", example_scene)] in
  let st : example_state := {| talk := Some example_session |} in
  py_getitem request KEY_STARTCONVERSATION_WORLDID = Ok (JInt 7)
  /\ start_conversation request st
     = (Raise TypeError, {| talk := None |}, [talk_end_called "Whiterun"]).
Proof.
  intros request st.
  assert (py_getitem request KEY_STARTCONVERSATION_WORLDID = Ok (JInt 7))
    as Hget by reflexivity.
  split; [exact Hget|].
  exact (world_id_that_is_not_a_string_leaves_no_session request (JInt 7) st
           Hget I).
Defined.

Lemma unreadable_actor_list_leaves_an_unstarted_session_witness :
  let request := JObj [("scene_id", JStr "Riverwood");
                       ("context", example_scene)] in
  let st : example_state := {| talk := None |} in
  (requested_world_id request = Ok "Riverwood"
   /\ py_getitem request KEY_ACTORS ≫= py_iter = Raise (KeyError "actors"))
  /\ start_conversation request st
     = (Raise (KeyError "actors"),
        {| talk := Some (conversation.new (context.new "Riverwood")) |},
        [conversation_created (context.new "Riverwood")]).
Proof.
  intros request st.
  assert (requested_world_id request = Ok "Riverwood") as Hw by reflexivity.
  assert (py_getitem request KEY_ACTORS ≫= py_iter
          = Raise (KeyError "actors")) as Hactors by reflexivity.
  split; [by split|].
  exact (unreadable_actor_list_leaves_an_unstarted_session request
           "Riverwood" (KeyError "actors") st Hw Hactors).
Defined.

Lemma player_text_is_processed_after_a_successful_update_witness :
  let request :=
    JObj [("player_input", JStr "Hello."); ("actors", JList []);
          ("context", example_scene)] in
  let broken := JObj [("player_input", JStr "Hello.")] in
  let st : example_state := {| talk := Some example_session |} in
  (py_getitem request KEY_REQUESTTYPE_PLAYERINPUT = Ok (JStr "Hello.")
   /\ py_getitem broken KEY_REQUESTTYPE_PLAYERINPUT = Ok (JStr "Hello."))
  /\ (exists c',
        player_input request st
        = (Ok (JObj [("reply_type", JStr "npc_talk")]), {| talk := Some c' |},
           [talk_process_player_input_called (JStr "Hello.")])
        /\ conversation.dialogue c' = [JStr "Hello."])
  /\ player_input broken st = (Raise (KeyError "actors"), st, []).
Proof.
  intros request broken st.
  assert (py_getitem request KEY_REQUESTTYPE_PLAYERINPUT = Ok (JStr "Hello."))
    as Hget by reflexivity.
  assert (py_getitem broken KEY_REQUESTTYPE_PLAYERINPUT = Ok (JStr "Hello."))
    as Hget' by reflexivity.
  split; [by split|].
  destruct (player_text_is_processed_after_a_successful_update request
              (JStr "Hello.") example_session Hget)
    as ((r & c' & tr & Hrun & Hinput) & _).
  destruct (player_text_is_processed_after_a_successful_update broken
              (JStr "Hello.") example_session Hget')
    as ((r' & c'' & tr' & Hrun' & Hinput') & _).
  vm_compute in Hrun. injection Hrun as <- <- <-.
  vm_compute in Hrun'. injection Hrun' as <- <- <-.
  split; [|exact Hinput'].
  eexists. split; [exact Hinput|reflexivity].
Defined.

Lemma enrichment_survives_player_inputs_witness :
  let requests :=
    [JObj [("player_input", JStr "Hello.");
           ("actors", JList [example_actor 80801 108196 "Someone" false []]);
           ("context", example_scene)];
     JObj [("actors", JList [])]] in
  conversation.get_character "0001A6A4" example_session = Some example_lydia
  /\ exists c' tr rec',
       serve player_input requests
         ({| talk := Some example_session |} : example_state)
       = ({| talk := Some c' |}, tr)
       /\ conversation.get_character "0001A6A4" c' = Some rec'
       /\ enrichment_of rec' = enrichment_of example_lydia.
Proof.
  intros requests.
  assert (conversation.get_character "0001A6A4" example_session
          = Some example_lydia) as Hget by reflexivity.
  split; [exact Hget|].
  exact (enrichment_survives_player_inputs requests example_session
           "0001A6A4" example_lydia Hget).
Defined.

Lemma turn_outcomes_witness :
  let talking :=
    conversation.process_player_input (JStr "Hello.") example_session in
  let st : example_state := {| talk := Some talking |} in
  py_contains (JObj []) KEY_REQUEST_EXTRA_ACTIONS = Ok false
  /\ continue_conversation (JObj []) st
     = (Ok (JObj [("reply_type", JStr "npc_talk");
                  ("npc_talk",
                   JObj [("speaker", JStr "Lydia");
                         ("line_to_speak", JStr "Hello there.");
                         ("voice_file", JStr "line.wav");
                         ("duration", JInt 2);
                         ("actions", JList [])])]),
        st,
        [talk_continue_conversation_called;
         prepare_sentence_for_game_called
           (sentence.make example_speaker " Hello there. " "line.wav"
              (JInt 2) [] None)]).
Proof.
  intros talking st.
  assert (py_contains (JObj []) KEY_REQUEST_EXTRA_ACTIONS = Ok false)
    as Hextra by reflexivity.
  split; [exact Hextra|].
  exact (turn_outcomes (JObj []) talking Hextra).
Defined.

Lemma reload_happens_before_the_turn_when_tagged_witness :
  let request :=
    JObj [("extra_action_tags", JList [JStr "reload_conversation"])] in
  let st : example_state := {| talk := Some example_session |} in
  (py_getitem request KEY_REQUEST_EXTRA_ACTIONS
   = Ok (JList [JStr "reload_conversation"])
   /\ py_contains (JList [JStr "reload_conversation"])
        ACTION_RELOADCONVERSATION = Ok true
   /\ py_contains (JObj []) KEY_REQUEST_EXTRA_ACTIONS = Ok false)
  /\ snd (continue_conversation request st)
     = [talk_reload_conversation_called; talk_continue_conversation_called;
        talk_end_called "Whiterun"].
Proof.
  intros request st.
  assert (py_getitem request KEY_REQUEST_EXTRA_ACTIONS
          = Ok (JList [JStr "reload_conversation"])) as Hextra by reflexivity.
  assert (py_contains (JList [JStr "reload_conversation"])
            ACTION_RELOADCONVERSATION = Ok true) as Hreload by reflexivity.
  assert (py_contains (JObj []) KEY_REQUEST_EXTRA_ACTIONS = Ok false)
    as Hplain by reflexivity.
  split; [by repeat split|].
  rewrite (reload_happens_before_the_turn_when_tagged request (JObj [])
             (JList [JStr "reload_conversation"]) true example_session
             Hextra Hreload Hplain).
  reflexivity.
Defined.

Lemma end_is_called_twice_after_a_generation_error_witness :
  let st : example_state := {| talk := Some example_session |} in
  let failed :=
    sentence.make example_speaker "" "" (JInt 0) []
      (Some "The text is too long") in
  (py_contains (JObj []) KEY_REQUEST_EXTRA_ACTIONS = Ok false
   /\ conversation.continue_conversation example_session
      = ("npc_talk", Some failed, example_session)
   /\ carries_error failed = Some "The text is too long")
  /\ let '(r1, st1, tr1) := continue_conversation (JObj []) st in
     let '(r2, st2, tr2) := end_conversation (JObj []) st1 in
     r1 = Ok (error_message "The text is too long")
     /\ tr1 = [talk_continue_conversation_called; talk_end_called "Whiterun"]
     /\ tr2 = talk_end_called "Whiterun" :: end_conversation_log
     /\ st2 = {| talk := None |}.
Proof.
  intros st failed.
  assert (py_contains (JObj []) KEY_REQUEST_EXTRA_ACTIONS = Ok false)
    as Hextra by reflexivity.
  assert (conversation.continue_conversation example_session
          = ("npc_talk", Some failed, example_session)) as Hturn
    by reflexivity.
  assert (carries_error failed = Some "The text is too long") as Herr
    by reflexivity.
  split; [by repeat split|].
  exact (end_is_called_twice_after_a_generation_error (JObj []) (JObj [])
           example_session example_session "npc_talk" "The text is too long"
           failed Hextra Hturn Herr).
Defined.

Lemma voice_token_is_the_word_after_the_first_bracket_witness :
  voice_token "[VoiceType <MaleNord (00013AD2)>]" = Ok "MaleNord"
  /\ has_char " " "MaleNord" = false
  /\ has_char "<" "MaleNord" = false
  /\ exists before rest,
       "[VoiceType <MaleNord (00013AD2)>]"
       = before +:+ String "<" ("MaleNord" +:+ rest)
       /\ has_char "<" before = false
       /\ stops_at " " "<" rest = true.
Proof.
  assert (voice_token "[VoiceType <MaleNord (00013AD2)>]" = Ok "MaleNord")
    as Htoken by reflexivity.
  split; [exact Htoken|].
  exact (voice_token_is_the_word_after_the_first_bracket _ _ Htoken).
Defined.

Lemma equipment_slots_are_wrapped_one_by_one_witness :
  let worn := [("body", JStr "Steel Armor"); ("head", JStr "Iron Helmet")] in
  NoDup (map fst worn)
  /\ convert_to_equipment_item_dictionary (JObj worn)
     = Ok [("body", {| item_name := JStr "Steel Armor" |});
           ("head", {| item_name := JStr "Iron Helmet" |})]
  /\ convert_to_equipment_item_dictionary JNull = Ok []
  /\ convert_to_equipment_item_dictionary (JStr "armor") = Raise AttributeError.
Proof.
  intros worn.
  assert (NoDup (map fst worn)) as Hnd.
  { apply (bool_decide_unpack _). reflexivity. }
  split; [exact Hnd|]. split.
  - exact (equipment_slots_are_wrapped_one_by_one (JObj worn) Hnd).
  - split.
    + exact (equipment_slots_are_wrapped_one_by_one JNull I).
    + exact (equipment_slots_are_wrapped_one_by_one (JStr "armor") I).
Defined.
